(** * Brokkoly: dispatch, validation and retry, embedded from the Python sources

    The development follows [brokkoly/__init__.py] and [brokkoly/retry.py].
    Python integers are [Z]; attempt counters, which Celery keeps as
    non-negative integers, are [nat].  Dictionaries with string keys are
    [gmap string _].  Python exceptions are values of [exn]; a computation that
    may raise returns [result _]; a computation that also talks to the
    database, to the broker or to the request stream lives in the monad [M]
    over a [world] that records every such call in order. *)

From Stdlib Require Import ZArith.
From stdpp Require Import gmap strings list fin_maps sorting.

#[local] Set Warnings "-clear-no-such-hyp".

Open Scope Z_scope.

(** ** Exceptions and results *)

(** The exceptions the embedded code raises or lets through.  [UserError]
    stands for any exception raised by a registered callable. *)
Inductive exn : Type :=
  | BrokkolyError (msg : string)
  | HTTPBadRequest (title description : string)
  | HTTPNotFound (title description : string)
  | KeyError
  | TypeError
  | Retry (countdown : Z)
  | UserError (tag : string).

Inductive result (A : Type) : Type :=
  | Ok (a : A)
  | Err (e : exn).
Arguments Ok {A} a.
Arguments Err {A} e.

Definition result_bind {A B} (r : result A) (k : A → result B) : result B :=
  match r with
  | Ok a => k a
  | Err e => Err e
  end.

(** ** [brokkoly/retry.py] *)

Module FibonacciBackoff.

Record t : Type := make { _max_retries : Z; _max_wait_seconds : option Z }.

Definition max_retries (self : t) : option Z := Some (_max_retries self).

(** The body of [for _ in range(retry_count)], with [n] iterations left. *)
Fixpoint countdown_loop (max_wait_seconds : option Z) (n : nat) (x y : Z) : Z :=
  match n with
  | O => y
  | S n' =>
      let '(x, y) := (y, x + y) in
      match max_wait_seconds with
      | Some m => if m <=? y then m else countdown_loop max_wait_seconds n' x y
      | None => countdown_loop max_wait_seconds n' x y
      end
  end.

Definition countdown (self : t) (retry_count : nat) (error : exn) : result Z :=
  Ok (countdown_loop (_max_wait_seconds self) retry_count 1 1).

End FibonacciBackoff.

Module ExponentialBackoff.

Record t : Type := make { _max_retries : Z; _max_wait_seconds : option Z }.

Definition max_retries (self : t) : option Z := Some (_max_retries self).

(** [self._max_wait_seconds < wait]: ordering [None] against an integer
    raises [TypeError] in Python 3. *)
Definition countdown (self : t) (retry_count : nat) (error : exn) : result Z :=
  let wait := 2 ^ (Z.of_nat retry_count + 1) in
  match _max_wait_seconds self with
  | None => Err TypeError
  | Some m => Ok (if m <? wait then wait else m)
  end.

End ExponentialBackoff.

(** The delay sequence 1, 2, 3, 5, 8, 13, ... written as the Fibonacci
    recurrence, to compare [FibonacciBackoff.countdown] against. *)
Fixpoint fib_pair (n : nat) : Z * Z :=
  match n with
  | O => (1, 1)
  | S n' => let '(a, b) := fib_pair n' in (b, a + b)
  end.

Definition fib_delay (n : nat) : Z := snd (fib_pair n).

(** ** Values and declared types *)

(** Python values that a message can hold: what [json.loads] produces, and
    what a preprocessor hands on.  A float is carried by its bit pattern; no
    arithmetic on it happens in the embedded code. *)
#[warnings="-register-all"]
Inductive value : Type :=
  | VNone
  | VBool (b : bool)
  | VInt (z : Z)
  | VFloat (bits : Z)
  | VStr (s : string)
  | VList (l : list value)
  | VDict (d : gmap string value).

(** A parameter annotation: [typing.Any], or one of the built-in classes of
    the values above. *)
Inductive pytype : Type :=
  | Any
  | TNoneType
  | TBool
  | TInt
  | TFloat
  | TStr
  | TList
  | TDict.

#[export] Instance pytype_eq_dec : EqDecision pytype.
Proof. solve_decision. Defined.

(** [arg_type != Any], negated. *)
Definition is_Any (ty : pytype) : bool :=
  match ty with
  | Any => true
  | _ => false
  end.

(** [arg_type.__name__] *)
Definition __name__ (ty : pytype) : string :=
  match ty with
  | Any => "Any"
  | TNoneType => "NoneType"
  | TBool => "bool"
  | TInt => "int"
  | TFloat => "float"
  | TStr => "str"
  | TList => "list"
  | TDict => "dict"
  end.

(** [isinstance(value, arg_type)] for a class [arg_type]; [bool] is a subclass
    of [int]. *)
Definition isinstance (v : value) (ty : pytype) : bool :=
  match v, ty with
  | VNone, TNoneType => true
  | VBool _, TBool => true
  | VBool _, TInt => true
  | VInt _, TInt => true
  | VFloat _, TFloat => true
  | VStr _, TStr => true
  | VList _, TList => true
  | VDict _, TDict => true
  | _, _ => false
  end.

(** [message[arg_name]] with a string key: [KeyError] on a dictionary without
    the key, [TypeError] on anything that is not a dictionary. *)
Definition getitem (message : value) (key : string) : result value :=
  match message with
  | VDict d =>
      match d !! key with
      | Some v => Ok v
      | None => Err KeyError
      end
  | _ => Err TypeError
  end.

(** ** The validator *)

Abbreviation Message := (gmap string value).
Abbreviation Validation := (list (string * pytype)).

(** The loop of [_validate], with [validated] the dictionary built so far. *)
Fixpoint _validate_loop (message : value) (validation : Validation)
    (validated : Message) : result Message :=
  match validation with
  | [] => Ok validated
  | (arg_name, arg_type) :: validation' =>
      match getitem message arg_name with
      | Err KeyError =>
          Err (HTTPBadRequest "Missing required filed" (arg_name +:+ " is required"))
      | Err e => Err e
      | Ok v =>
          if negb (is_Any arg_type) && negb (isinstance v arg_type)
          then Err (HTTPBadRequest "Invalid type"
                      (arg_name +:+ " must be " +:+ __name__ arg_type +:+ " type"))
          else _validate_loop message validation' (<[arg_name := v]> validated)
      end
  end.

Definition _validate (message : value) (validation : Validation) : result Message :=
  _validate_loop message validation ∅.

(** The three situations of one schema entry with respect to a message, as
    the validator's contract names them: the field is absent; it is present
    with a value that is not of the declared type, which is not [Any]; it is
    present and in order. *)
Definition missing_field (message : Message) (entry : string * pytype) : Prop :=
  message !! entry.1 = None.

Definition type_mismatch (message : Message) (entry : string * pytype) : Prop :=
  ∃ v, message !! entry.1 = Some v ∧ entry.2 ≠ Any ∧ isinstance v entry.2 = false.

Definition field_ok (message : Message) (entry : string * pytype) : Prop :=
  ∃ v, message !! entry.1 = Some v ∧ (entry.2 = Any ∨ isinstance v entry.2 = true).

Definition MissingFieldError (arg_name : string) : exn :=
  HTTPBadRequest "Missing required filed" (arg_name +:+ " is required").

Definition TypeMismatchError (arg_name : string) (arg_type : pytype) : exn :=
  HTTPBadRequest "Invalid type"
    (arg_name +:+ " must be " +:+ __name__ arg_type +:+ " type").

(** ** The world: database, broker and request stream *)

(** One entry per call that leaves the process or touches the connection, in
    the order the calls are made. *)
Inductive event : Type :=
  | EvReconnect
  | EvGetById (message_log_id : Z)
  | EvCall (args : Message)
  | EvComplete (message_log_id : Z)
  | EvCommit
  | EvClose
  | EvRetry (countdown : Z) (max_retries : option Z) (exc : exn)
  | EvStreamRead
  | EvCreate (message_log_id : Z) (queue_name task_name message : string)
  | EvApplyAsync (queue_name task_name : string) (message_log_id : Z)
      (args : Message) (countdown : value)
  | EvEliminate (queue_name task_name : string).

(** [next_id] is the id the store gives to the next log entry, [calls] the
    number of times a task body has run so far (a body may behave differently
    from one run to the next), [trace] the calls made, oldest first. *)
Record world : Type := World { next_id : Z; calls : nat; trace : list event }.

Definition M (A : Type) : Type := world → result A * world.

#[export] Instance M_ret : MRet M := λ A a w, (Ok a, w).

#[export] Instance M_bind : MBind M := λ A B k m w,
  match m w with
  | (Ok a, w') => k a w'
  | (Err e, w') => (Err e, w')
  end.

Definition raise {A} (e : exn) : M A := λ w, (Err e, w).

Definition lift {A} (r : result A) : M A := λ w, (r, w).

(** Runs [m] and hands its outcome, returned or raised, to the continuation:
    the shape of a [try] block whose handlers are written as a [match]. *)
Definition attempt {A} (m : M A) : M (result A) :=
  λ w, let '(r, w') := m w in (Ok r, w').

Definition emit (e : event) : M unit :=
  λ w, (Ok tt, World (next_id w) (calls w) (trace w ++ [e])).

(** Modelled from the spec: [MessageLog.create] of [brokkoly.database], which
    is not among the sources, is [createEntry(queue, task, serializedMessage)
    -> id]: it records the entry, open, under an autoincrement id. *)
Definition MessageLog_create (queue_name task_name message : string) : M Z :=
  λ w, (Ok (next_id w),
        World (next_id w + 1) (calls w)
          (trace w ++ [EvCreate (next_id w) queue_name task_name message])).

(** Modelled from the spec: [MessageLog.eliminate] is [pruneOldest(queue,
    task, keepCount)]. *)
Definition MessageLog_eliminate (queue_name task_name : string) : M unit :=
  emit (EvEliminate queue_name task_name).

(** Modelled from the spec: [MessageLog.get_by_id] fetches the entry; the
    entry is carried by its id. *)
Definition MessageLog_get_by_id (message_log_id : Z) : M Z :=
  emit (EvGetById message_log_id) ;; mret message_log_id.

(** Modelled from the spec: [message_log.complete()] is [markCompleted(id)]. *)
Definition MessageLog_complete (message_log : Z) : M unit :=
  emit (EvComplete message_log).

(** Modelled from the spec: the thread-local connection of
    [brokkoly.database.db], reconnected at the start of every task handling
    cycle, committed and closed by the caller. *)
Definition connection_manager_reconnect : M unit := emit EvReconnect.
Definition connection_commit : M unit := emit EvCommit.
Definition connection_close : M unit := emit EvClose.

(** ** Retry policies as an interface *)

Class RetryPolicy (P : Type) : Type := {
  max_retries : P → option Z;
  countdown : P → nat → exn → result Z
}.

#[export] Instance FibonacciBackoff_policy : RetryPolicy FibonacciBackoff.t := {|
  max_retries := FibonacciBackoff.max_retries;
  countdown := FibonacciBackoff.countdown
|}.

#[export] Instance ExponentialBackoff_policy : RetryPolicy ExponentialBackoff.t := {|
  max_retries := ExponentialBackoff.max_retries;
  countdown := ExponentialBackoff.countdown
|}.

(** ** The task execution wrapper *)

(** A task body: its outcome may depend on how many bodies ran before it. *)
Definition TaskBody : Type := nat → Message → result value.

Definition call_body (f : TaskBody) (args : Message) : M value :=
  λ w, (f (calls w) args, World (next_id w) (S (calls w)) (trace w ++ [EvCall args])).

(** The bound Celery task as [handle] uses it: [request.retries] and the
    [retry] primitive. *)
Record CeleryTask : Type := {
  request_retries : nat;
  retry : Z → option Z → exn → M unit
}.

Section Handle.
Context {P : Type} `{RetryPolicy P}.
Variable retry_policy : option P.
Variable f : TaskBody.

(** [handle(celery_task, meta, args)] with [meta = {'message_log_id': id}]. *)
Definition handle (celery_task : CeleryTask) (message_log_id : Z) (args : Message)
    : M value :=
  connection_manager_reconnect ;;
  message_log ← MessageLog_get_by_id message_log_id;
  r ← attempt (result ← call_body f args;
               MessageLog_complete message_log ;;
               connection_commit ;;
               connection_close ;;
               mret result);
  match r with
  | Ok result => mret result
  | Err e =>
      match retry_policy with
      | None => raise e
      | Some policy =>
          let error := e in
          r' ← attempt (c ← lift (countdown policy (request_retries celery_task) error);
                        retry celery_task c (max_retries policy) error);
          match r' with
          | Err (Retry c) => connection_close ;; raise (Retry c)
          | Err _ => MessageLog_complete message_log ;;
                     connection_commit ;; connection_close ;; mret VNone
          | Ok _ => MessageLog_complete message_log ;;
                    connection_commit ;; connection_close ;; mret VNone
          end
      end
  end.
End Handle.

(** Modelled from the spec: the broker, which is Celery and not among the
    sources.  [scheduleRetry(delaySeconds, maxRetries, error)] accepts while
    attempts remain and raises the retry-accepted signal; once they are
    exhausted it raises the error it was given.  [default_max_retries] is the
    broker's own bound, used when the policy gives none. *)
Definition celery_retry (default_max_retries : Z) (retries : nat)
    (c : Z) (max_retries : option Z) (exc : exn) : M unit :=
  emit (EvRetry c max_retries exc) ;;
  if Z.of_nat retries <? default default_max_retries max_retries
  then raise (Retry c)
  else raise exc.

Definition celery_task_at (default_max_retries : Z) (retries : nat) : CeleryTask :=
  {| request_retries := retries; retry := celery_retry default_max_retries retries |}.

(** Modelled from the spec: the broker runs the wrapper, and runs it again
    with the attempt count increased whenever the wrapper leaves with the
    retry-accepted signal.  [None] when [fuel] attempts were not enough. *)
Fixpoint deliver {P : Type} `{RetryPolicy P} (retry_policy : option P) (f : TaskBody)
    (default_max_retries : Z) (message_log_id : Z) (args : Message)
    (fuel : nat) (retries : nat) (w : world) : option (result value) * world :=
  match fuel with
  | O => (None, w)
  | S fuel' =>
      match handle retry_policy f (celery_task_at default_max_retries retries)
              message_log_id args w with
      | (Err (Retry _), w') =>
          deliver retry_policy f default_max_retries message_log_id args fuel' (S retries) w'
      | (r, w') => (Some r, w')
      end
  end.

Definition is_complete (e : event) : bool :=
  match e with EvComplete _ => true | _ => false end.
Definition is_commit (e : event) : bool :=
  match e with EvCommit => true | _ => false end.
Definition is_close (e : event) : bool :=
  match e with EvClose => true | _ => false end.
Definition is_create (e : event) : bool :=
  match e with EvCreate _ _ _ _ => true | _ => false end.
Definition is_apply_async (e : event) : bool :=
  match e with EvApplyAsync _ _ _ _ _ => true | _ => false end.

Definition count (p : event → bool) (tr : list event) : nat :=
  length (List.filter p tr).

(** ** The registry *)

(** A registered callable: its name, what [inspect.getfullargspec] reports of
    its signature, and its behaviour on keyword arguments. *)
Record Callable : Type := {
  co_name : string;
  fullspec_args : list string;
  fullspec_annotations : list (string * pytype);
  call : Message → result value
}.

(** [args[arg_name] = arg_type] on an insertion-ordered dictionary. *)
Fixpoint dict_set (args : Validation) (arg_name : string) (arg_type : pytype)
    : Validation :=
  match args with
  | [] => [(arg_name, arg_type)]
  | (k, ty) :: args' =>
      if String.eqb k arg_name then (k, arg_type) :: args'
      else (k, ty) :: dict_set args' arg_name arg_type
  end.

Definition _prepare_validation (f : Callable) : Validation :=
  let args := (λ arg_name, (arg_name, Any)) <$> fullspec_args f in
  foldl (λ args '(arg_name, arg_type),
           if String.eqb arg_name "return" then args
           else dict_set args arg_name arg_type)
        args (fullspec_annotations f).

(** [Processor = namedtuple('Processor', ['func', 'validation'])]. *)
Record Processor (F : Type) : Type := { func : F; validation : Validation }.
Arguments Build_Processor {F} func validation.
Arguments func {F} p.
Arguments validation {F} p.

(** What [_tasks[queue][task]] holds.  The first processor's [func] is the
    Celery task made from [handle]; on the producing side only its identity
    matters, so it is carried as the pair of names it was registered under. *)
Definition TaskEntry : Type :=
  Processor (string * string) * list (Processor (Message → result value)).

Abbreviation Registry := (gmap string (gmap string TaskEntry)).

(** A [Brokkoly] instance.  Its [_tasks] attribute is the very dictionary
    stored at [_tasks[name]], so it is kept as the key [name] into the
    registry: a write through the instance is a write to that entry. *)
Record Brokkoly : Type := { queue : string }.

(** [_tasks[name]] on the [defaultdict]: a missing key is first bound to a new
    empty dictionary. *)
Definition defaultdict_getitem (_tasks : Registry) (name : string)
    : gmap string TaskEntry * Registry :=
  match _tasks !! name with
  | Some d => (d, _tasks)
  | None => (∅, <[name := ∅]> _tasks)
  end.

Definition Brokkoly__init__ (name broker : string) (_tasks : Registry)
    : result (Brokkoly * Registry) :=
  if String.prefix "_" name
  then Err (BrokkolyError "Queue name starting with _ is not allowed.")
  else Ok ({| queue := name |}, (defaultdict_getitem _tasks name).2).

(** [self.task( *preprocessors, retry_policy=...)(f)]: the registration part of
    [wrapper]. *)
Definition Brokkoly_task (self : Brokkoly) (preprocessors : list Callable)
    (f : Callable) (_tasks : Registry) : result Registry :=
  let self_tasks := default ∅ (_tasks !! queue self) in
  match self_tasks !! co_name f with
  | Some _ => Err (BrokkolyError (co_name f +:+ " is already registered."))
  | None =>
      let entry : TaskEntry :=
        (Build_Processor (queue self, co_name f) (_prepare_validation f),
         (λ p, Build_Processor (call p) (_prepare_validation p)) <$> preprocessors) in
      Ok (<[queue self := <[co_name f := entry]> self_tasks]> _tasks)
  end.

(** ** The producer *)

Fixpoint _recurse (message : value)
    (preprocessors : list (Processor (Message → result value))) : result value :=
  match preprocessors with
  | p :: tail =>
      match _validate message (validation p) with
      | Ok kwargs =>
          match func p kwargs with
          | Ok message' => _recurse message' tail
          | Err e => Err e
          end
      | Err e => Err e
      end
  | [] => Ok message
  end.

Definition _validate_queue_and_task (_tasks : Registry) (queue_name task_name : string)
    : result TaskEntry :=
  match _tasks !! queue_name with
  | None =>
      Err (HTTPBadRequest "Undefined queue" (queue_name +:+ " is undefined queue"))
  | Some queue_tasks =>
      match queue_tasks !! task_name with
      | Some entry => Ok entry
      | None =>
          Err (HTTPBadRequest "Undefined task" (task_name +:+ " is undefined task"))
      end
  end.

(** [TaskListResource._list_task_name]; the names come in the map's key order. *)
Definition _list_task_name (_tasks : Registry) (queue_name : string)
    : result (list string) :=
  match _tasks !! queue_name with
  | Some queue_tasks => Ok (map_to_list queue_tasks).*1
  | None => Err KeyError
  end.

Definition TaskListResource_on_get (_tasks : Registry) (queue_name : string)
    : result (list string) :=
  match _list_task_name _tasks queue_name with
  | Err KeyError =>
      Err (HTTPNotFound "Undefined queue" (queue_name +:+ " is undefined queue"))
  | r => r
  end.

Definition string_le (a b : string) : Prop := String.leb a b = true.

#[export] Instance string_le_dec : RelDecision string_le.
Proof. intros a b. unfold string_le. apply _. Defined.

(** [QueueListResource._list_queue_name]: [sorted(_tasks.keys())]. *)
Definition _list_queue_name (_tasks : Registry) : list string :=
  merge_sort string_le (map_to_list _tasks).*1.

Record Request : Type := { stream : string }.
Record Response : Type := { status : string; body : string }.

Definition stream_read (req : Request) : M string :=
  emit EvStreamRead ;; mret (stream req).

Section Producer.
(** [json.loads] ([None] for a payload that is not JSON) and [json.dumps]. *)
Variable json_loads : string → option value.
Variable json_dumps : value → string.
Variable _tasks : Registry.

Definition _validate_payload (req : Request) : M value :=
  payload ← stream_read req;
  if String.eqb payload ""
  then raise (HTTPBadRequest "Empty payload"
    "Even your task doesn't need any arguments, payload must have message filed")
  else match json_loads payload with
       | Some v => mret v
       | None =>
           raise (HTTPBadRequest "Payload is not a JSON" "The payload must be a JSON")
       end.

(** [payload.get('delay', 0)] *)
Definition payload_get_delay (payload : value) : result value :=
  match payload with
  | VDict d => Ok (default (VInt 0) (d !! "delay"))
  | _ => Err TypeError
  end.

Definition apply_async (task : string * string) (message_log_id : Z)
    (args : Message) (countdown : value) : M unit :=
  emit (EvApplyAsync task.1 task.2 message_log_id args countdown).

Definition on_post (req : Request) (queue_name task_name : string) : M Response :=
  entry ← lift (_validate_queue_and_task _tasks queue_name task_name);
  let '(Build_Processor task validation, preprocessors) := entry in
  payload ← _validate_payload req;
  message ← lift (match getitem payload "message" with
                  | Err KeyError =>
                      Err (HTTPBadRequest "Invalid JSON" "JSON must have message field")
                  | r => r
                  end);
  message_log_id ← MessageLog_create queue_name task_name (json_dumps message);
  args ← lift (result_bind (_recurse message preprocessors)
                 (λ m, _validate m validation));
  delay ← lift (payload_get_delay payload);
  apply_async task message_log_id args delay ;;
  MessageLog_eliminate queue_name task_name ;;
  mret {| status := "202 Accepted"; body := "{}" |}.
End Producer.

(** The three ways in which the fold over the preprocessors followed by the
    validation against the task's schema fails with [e]: a preprocessor's
    validation fails, a preprocessor raises, or, all preprocessors having
    run, the task's validation fails. *)
Inductive dispatch_failure (schema : Validation) (e : exn)
    : value → list (Processor (Message → result value)) → Prop :=
  | preprocessor_validation_fails message p tail :
      _validate message (validation p) = Err e →
      dispatch_failure schema e message (p :: tail)
  | preprocessor_execution_fails message p tail kwargs :
      _validate message (validation p) = Ok kwargs →
      func p kwargs = Err e →
      dispatch_failure schema e message (p :: tail)
  | preprocessor_passes message p tail kwargs message' :
      _validate message (validation p) = Ok kwargs →
      func p kwargs = Ok message' →
      dispatch_failure schema e message' tail →
      dispatch_failure schema e message (p :: tail)
  | task_validation_fails message :
      _validate message schema = Err e →
      dispatch_failure schema e message [].

(** ** The request middleware *)

(** The calls [DBManager.process_response] makes on the connection. *)
Inductive conn_call : Type := CallCommit | CallRollback | CallClose.

(** What a call on a [sqlite3] connection can raise: [ProgrammingError], the
    one exception the middleware handles, or another database error. *)
Inductive sqlite_error : Type := ProgrammingError | OtherDatabaseError.

(** A connection as the middleware sees it: for each call, the exception it
    raises, if any.  Every call is made at most once per response. *)
Definition Connection : Type := conn_call → option sqlite_error.

(** [DBManager.process_response(req, resp, resource, req_succeeded)], with
    [connection] what [connection_manager.get()] returns.  The result is the
    calls made, in order, and the exception that leaves the method, if any. *)
Definition process_response (connection : option Connection) (req_succeeded : bool)
    : list conn_call * option sqlite_error :=
  match connection with
  | None => ([], None)
  | Some c =>
      if req_succeeded
      then match c CallCommit with
           | Some e => ([CallCommit], Some e)
           | None => ([CallCommit; CallClose], c CallClose)
           end
      else
        let '(made, raised) :=
          match c CallRollback with
          | Some e => ([CallRollback], Some e)
          | None => ([CallRollback; CallClose], c CallClose)
          end in
        match raised with
        | Some ProgrammingError => (made, None)
        | _ => (made, raised)
        end
  end.

(** A connection on which every call goes through, and one that was closed
    before: [commit] and [rollback] raise [ProgrammingError] on it. *)
Definition live_connection : Connection := λ _, None.

Definition closed_connection : Connection :=
  λ call, match call with
          | CallClose => None
          | _ => Some ProgrammingError
          end.

(** A connection that rolls back and then fails to close, with an error that
    is not a [ProgrammingError]. *)
Definition failing_close_connection : Connection :=
  λ call, match call with
          | CallClose => Some OtherDatabaseError
          | _ => None
          end.

(** ** A schema and messages to run the validator on *)

Definition text_number_schema : Validation := [("text", TStr); ("number", TInt)].

Definition message_ok : Message :=
  {[ "text" := VStr "a"; "number" := VInt 1; "extra" := VBool true ]}.

Definition message_without_text : Message := {[ "number" := VInt 1 ]}.

Definition message_bad_number : Message :=
  {[ "text" := VStr "a"; "number" := VStr "x" ]}.

(** ** A registry and a decoder to run the producer on *)

Definition preprocessor_for_preprocessor_test : Callable := {|
  co_name := "preprocessor_for_preprocessor_test";
  fullspec_args := ["text"];
  fullspec_annotations := [("text", TStr)];
  call := λ _, Ok VNone
|}.

Definition task_for_preprocessor_test : Callable := {|
  co_name := "task_for_preprocessor_test";
  fullspec_args := [];
  fullspec_annotations := [];
  call := λ _, Ok VNone
|}.

(** The registry after [Brokkoly('test_queue', 'test_broker')] and the
    registration of the task above behind its preprocessor. *)
Definition test_registry : Registry :=
  match Brokkoly__init__ "test_queue" "test_broker" ∅ with
  | Ok (self, _tasks) =>
      match Brokkoly_task self [preprocessor_for_preprocessor_test]
              task_for_preprocessor_test _tasks with
      | Ok _tasks' => _tasks'
      | Err _ => _tasks
      end
  | Err _ => ∅
  end.

Definition preprocessor_number_to_text : Callable := {|
  co_name := "preprocessor_number_to_text";
  fullspec_args := ["number"];
  fullspec_annotations := [("number", TInt)];
  call := λ _, Ok (VDict {[ "text" := VStr "1" ]})
|}.

Definition task_with_text : Callable := {|
  co_name := "task_with_text";
  fullspec_args := ["text"];
  fullspec_annotations := [("text", TStr); ("return", TNoneType)];
  call := λ _, Ok VNone
|}.

(** [test_registry] with a second task whose preprocessor turns a number into
    a text. *)
Definition test_registry_with_text : Registry :=
  match Brokkoly_task {| queue := "test_queue" |} [preprocessor_number_to_text]
          task_with_text test_registry with
  | Ok _tasks' => _tasks'
  | Err _ => test_registry
  end.

(** A decoder that reads every body as [v], and an encoder that writes every
    message as the same text: enough to run one request. *)
Definition decode_as (v : value) : string → option value := λ _, Some v.
Definition encode_as (s : string) : value → string := λ _, s.

(** ** Task bodies used in the delivery scenarios *)

(** A body that raises [e] on every run. *)
Definition always_fails (e : exn) : TaskBody := λ _ _, Err e.

(** A body that raises [e] on its first [k] runs and returns [v] afterwards. *)
Definition fails_then_succeeds (k : nat) (e : exn) (v : value) : TaskBody :=
  λ run _, if (run <? k)%nat then Err e else Ok v.

Definition fresh_world : world := World 1 0 [].

(** ** Proof automation for the wrapper *)

Ltac run_wrapper :=
  cbv [handle celery_task_at celery_retry mbind M_bind mret M_ret attempt call_body
       lift raise emit MessageLog_get_by_id MessageLog_complete
       connection_manager_reconnect connection_commit connection_close
       request_retries retry];
  cbn [next_id calls trace fst snd].

Ltac run_producer :=
  cbv [on_post _validate_payload stream_read apply_async MessageLog_create
       MessageLog_eliminate mbind M_bind mret M_ret lift raise emit];
  cbn [next_id calls trace fst snd].

Ltac tidy_trace := rewrite <- ?app_assoc; cbn [app next_id calls trace].

Ltac count_trace :=
  tidy_trace; eexists; split; [done|]; split; [cbn; lia|];
  first [by intros [? [=]] | done].

(** * Properties *)

(** ** Retry policies *)

Section FibonacciFacts.
Import FibonacciBackoff.

Lemma fib_pair_S n : fib_pair (S n) = ((fib_pair n).2, (fib_pair n).1 + (fib_pair n).2).
Proof. simpl. by destruct (fib_pair n). Qed.

Lemma fib_pair_pos n : 0 < (fib_pair n).1 ∧ 0 < (fib_pair n).2.
Proof.
  induction n as [|n [IH1 IH2]]; [done|].
  rewrite fib_pair_S. simpl. lia.
Qed.

Lemma fib_delay_S_lt n : fib_delay n < fib_delay (S n).
Proof.
  unfold fib_delay. rewrite fib_pair_S. simpl.
  pose proof (fib_pair_pos n). lia.
Qed.

Lemma fib_delay_mono n k : fib_delay n ≤ fib_delay (n + k).
Proof.
  induction k as [|k IH]; [by rewrite Nat.add_0_r|].
  rewrite Nat.add_succ_r. pose proof (fib_delay_S_lt (n + k)). lia.
Qed.

Lemma countdown_loop_unbounded n k :
  countdown_loop None n (fib_pair k).1 (fib_pair k).2 = fib_delay (k + n).
Proof.
  revert k. induction n as [|n IH]; intros k.
  - by rewrite Nat.add_0_r.
  - simpl. specialize (IH (S k)). rewrite fib_pair_S in IH. simpl in IH.
    by rewrite IH, Nat.add_succ_r.
Qed.

Lemma countdown_loop_bounded m n k :
  countdown_loop (Some m) (S n) (fib_pair k).1 (fib_pair k).2
  = if m <=? fib_delay (k + S n) then m else fib_delay (k + S n).
Proof.
  revert k. induction n as [|n IH]; intros k.
  - simpl. rewrite Nat.add_1_r. unfold fib_delay. rewrite fib_pair_S. simpl.
    by destruct (m <=? _).
  - specialize (IH (S k)). rewrite fib_pair_S in IH. simpl in IH.
    change (countdown_loop (Some m) (S (S n)) (fib_pair k).1 (fib_pair k).2)
      with (if m <=? (fib_pair k).1 + (fib_pair k).2 then m
            else countdown_loop (Some m) (S n) (fib_pair k).2
                   ((fib_pair k).1 + (fib_pair k).2)).
    replace (k + S (S n))%nat with (S k + S n)%nat by lia.
    destruct (Z.leb_spec m ((fib_pair k).1 + (fib_pair k).2)) as [Hle|Hlt].
    + pose proof (fib_delay_mono (S k) (S n)) as Hm.
      assert (fib_delay (S k) = (fib_pair k).1 + (fib_pair k).2) as Hk
        by (unfold fib_delay; by rewrite fib_pair_S).
      destruct (Z.leb_spec m (fib_delay (S k + S n))); [done|lia].
    + exact IH.
Qed.

(** With a ceiling of at least one second the policy returns the Fibonacci
    delay, or the ceiling as soon as the delay meets it. *)
Lemma countdown_ceiling max_retries m i error :
  1 ≤ m →
  countdown (make max_retries (Some m)) i error
  = Ok (if m <=? fib_delay i then m else fib_delay i).
Proof.
  intros Hm. unfold countdown. simpl _max_wait_seconds. f_equal.
  destruct i as [|i].
  - simpl. change (fib_delay 0) with 1.
    destruct (Z.leb_spec m 1); [lia|done].
  - apply (countdown_loop_bounded m i 0).
Qed.

Lemma countdown_no_ceiling max_retries i error :
  countdown (make max_retries None) i error = Ok (fib_delay i).
Proof. unfold countdown. simpl. f_equal. apply (countdown_loop_unbounded i 0). Qed.
End FibonacciFacts.

(** C7: without a ceiling the Fibonacci policy gives 1, 2, 3, 5, 8, 13, 21,
    34, 55, 89 for attempts 0 to 9 and the Fibonacci delay for every attempt;
    with a ceiling of 80 it gives 1, 2, 3, 5, 8, 13, 21, 34, 55, 80, and for
    every attempt the ceiling whenever the Fibonacci delay meets or exceeds
    it, the delay itself otherwise. *)
Theorem fibonacci_countdown_sequence :
  (∀ max_retries error,
     (λ i, FibonacciBackoff.countdown (FibonacciBackoff.make max_retries None) i error)
       <$> seq 0 10
     = Ok <$> [1; 2; 3; 5; 8; 13; 21; 34; 55; 89]) ∧
  (∀ max_retries error,
     (λ i, FibonacciBackoff.countdown (FibonacciBackoff.make max_retries (Some 80)) i error)
       <$> seq 0 10
     = Ok <$> [1; 2; 3; 5; 8; 13; 21; 34; 55; 80]) ∧
  (∀ max_retries error i,
     FibonacciBackoff.countdown (FibonacciBackoff.make max_retries None) i error
     = Ok (fib_delay i)) ∧
  (∀ max_retries error i,
     FibonacciBackoff.countdown (FibonacciBackoff.make max_retries (Some 80)) i error
     = Ok (if 80 <=? fib_delay i then 80 else fib_delay i)).
Proof.
  split; [done|]. split; [done|]. split.
  - intros. apply countdown_no_ceiling.
  - intros. by apply countdown_ceiling.
Qed.

(** With a ceiling the exponential policy returns the larger of the computed
    delay and the ceiling. *)
Lemma exponential_countdown_max max_retries m i error :
  ExponentialBackoff.countdown (ExponentialBackoff.make max_retries (Some m)) i error
  = Ok (Z.max (2 ^ (Z.of_nat i + 1)) m).
Proof.
  unfold ExponentialBackoff.countdown. simpl. f_equal.
  destruct (Z.ltb_spec m (2 ^ (Z.of_nat i + 1))); lia.
Qed.

(** C1: with a ceiling of 5 the exponential policy answers 8 at attempt 2,
    above the ceiling; at attempt 0, where the computed delay 2 is below the
    ceiling, it answers the ceiling 5. *)
Theorem exponential_countdown_exceeds_ceiling :
  ∀ max_retries error,
    ExponentialBackoff.countdown (ExponentialBackoff.make max_retries (Some 5)) 2 error
    = Ok 8 ∧
    ExponentialBackoff.countdown (ExponentialBackoff.make max_retries (Some 5)) 0 error
    = Ok 5.
Proof. done. Qed.

(** C6: without a ceiling the exponential policy raises [TypeError] at every
    attempt instead of returning a delay. *)
Theorem exponential_countdown_no_ceiling_raises :
  ∀ max_retries error i,
    ExponentialBackoff.countdown (ExponentialBackoff.make max_retries None) i error
    = Err TypeError.
Proof. done. Qed.

(** ** The task execution wrapper *)

Section WrapperFacts.
Context {P : Type} `{RetryPolicy P}.

(** The body returns: mark completed, commit, close, return the result. *)
Lemma handle_success (policy : option P) (f : TaskBody) celery_task id args w v :
  f (calls w) args = Ok v →
  handle policy f celery_task id args w
  = (Ok v,
     World (next_id w) (S (calls w))
       (trace w ++ [EvReconnect; EvGetById id; EvCall args;
                    EvComplete id; EvCommit; EvClose])).
Proof. intros Hf. run_wrapper. rewrite Hf. cbn. by tidy_trace. Qed.

(** The body raises and there is no policy: the exception leaves at once. *)
Lemma handle_no_policy (f : TaskBody) celery_task id args w e :
  f (calls w) args = Err e →
  handle (@None P) f celery_task id args w
  = (Err e,
     World (next_id w) (S (calls w))
       (trace w ++ [EvReconnect; EvGetById id; EvCall args])).
Proof. intros Hf. run_wrapper. rewrite Hf. cbn. by tidy_trace. Qed.

(** The body raises and the broker accepts the reschedule. *)
Lemma handle_accepted (p : P) (f : TaskBody) d n id args w e c :
  f (calls w) args = Err e →
  countdown p n e = Ok c →
  Z.of_nat n < default d (max_retries p) →
  handle (Some p) f (celery_task_at d n) id args w
  = (Err (Retry c),
     World (next_id w) (S (calls w))
       (trace w ++ [EvReconnect; EvGetById id; EvCall args;
                    EvRetry c (max_retries p) e; EvClose])).
Proof.
  intros Hf Hc Hn. run_wrapper. rewrite Hf. cbn. rewrite Hc. cbn.
  destruct (Z.ltb_spec (Z.of_nat n) (default d (max_retries p))); [|lia].
  cbn. by tidy_trace.
Qed.

(** The body raises and the broker reports the retries exhausted. *)
Lemma handle_exhausted (p : P) (f : TaskBody) d n id args w e c :
  f (calls w) args = Err e →
  countdown p n e = Ok c →
  default d (max_retries p) ≤ Z.of_nat n →
  (∀ c', e ≠ Retry c') →
  handle (Some p) f (celery_task_at d n) id args w
  = (Ok VNone,
     World (next_id w) (S (calls w))
       (trace w ++ [EvReconnect; EvGetById id; EvCall args;
                    EvRetry c (max_retries p) e;
                    EvComplete id; EvCommit; EvClose])).
Proof.
  intros Hf Hc Hn He. run_wrapper. rewrite Hf. cbn. rewrite Hc. cbn.
  destruct (Z.ltb_spec (Z.of_nat n) (default d (max_retries p))); [lia|].
  cbn. destruct e; cbn; try (by tidy_trace). exfalso. by eapply He.
Qed.

(** The policy itself raises while the delay is computed: the wrapper takes
    the exhausted branch without having asked the broker. *)
Lemma handle_countdown_raises (p : P) (f : TaskBody) celery_task id args w e e' :
  f (calls w) args = Err e →
  countdown p (request_retries celery_task) e = Err e' →
  (∀ c', e' ≠ Retry c') →
  handle (Some p) f celery_task id args w
  = (Ok VNone,
     World (next_id w) (S (calls w))
       (trace w ++ [EvReconnect; EvGetById id; EvCall args;
                    EvComplete id; EvCommit; EvClose])).
Proof.
  intros Hf Hc He. destruct celery_task as [n r]. cbn in Hc.
  run_wrapper. rewrite Hf. cbn. rewrite Hc. cbn.
  destruct e'; cbn; try (by tidy_trace). exfalso. by eapply He.
Qed.

(** Under the broker, the wrapper closes the connection once on every exit
    but one: no policy and a body that raises. *)
Lemma handle_close_count (policy : option P) (f : TaskBody) d n id args w :
  ∃ evs,
    trace (handle policy f (celery_task_at d n) id args w).2 = trace w ++ evs ∧
    count is_close evs
    = match policy, f (calls w) args with
      | None, Err _ => 0%nat
      | _, _ => 1%nat
      end.
Proof.
  run_wrapper.
  destruct (f (calls w) args) as [v|e]; cbn.
  { tidy_trace. eexists. split; [done|]. by destruct policy. }
  destruct policy as [p|]; cbn; [|tidy_trace; by eexists].
  destruct (countdown p n e) as [c|e']; cbn.
  - destruct (_ <? _); cbn; [tidy_trace; by eexists|].
    destruct e; cbn; tidy_trace; by eexists.
  - destruct e'; cbn; tidy_trace; by eexists.
Qed.

(** An exit with the retry-accepted signal has neither marked the entry
    completed nor committed. *)
Lemma handle_retry_exit_no_commit (policy : option P) (f : TaskBody) d n id args w c :
  (handle policy f (celery_task_at d n) id args w).1 = Err (Retry c) →
  ∃ evs,
    trace (handle policy f (celery_task_at d n) id args w).2 = trace w ++ evs ∧
    count is_complete evs = 0%nat ∧ count is_commit evs = 0%nat.
Proof.
  run_wrapper.
  destruct (f (calls w) args) as [v|e]; cbn; [by intros [=]|].
  destruct policy as [p|]; cbn; [|intros _; tidy_trace; by eexists].
  destruct (countdown p n e) as [c0|e']; cbn.
  - destruct (_ <? _); cbn.
    + intros _. tidy_trace. by eexists.
    + destruct e; cbn; try (by intros [=]).
      intros _. tidy_trace. by eexists.
  - destruct e'; cbn; try (by intros [=]).
    intros _. tidy_trace. by eexists.
Qed.
Lemma count_app (q : event → bool) (tr tr' : list event) :
  count q (tr ++ tr') = (count q tr + count q tr')%nat.
Proof. unfold count. by rewrite List.filter_app, length_app. Qed.

(** One run of the wrapper marks the entry completed at most once, and not
    at all when it leaves with the retry-accepted signal. *)
Lemma handle_complete_count (policy : option P) (f : TaskBody) d n id args w :
  ∃ evs,
    trace (handle policy f (celery_task_at d n) id args w).2 = trace w ++ evs ∧
    (count is_complete evs ≤ 1)%nat ∧
    ((∃ c, (handle policy f (celery_task_at d n) id args w).1 = Err (Retry c)) →
     count is_complete evs = 0%nat).
Proof.
  run_wrapper.
  destruct (f (calls w) args) as [v|e]; cbn; [count_trace|].
  destruct policy as [p|]; cbn; [|count_trace].
  destruct (countdown p n e) as [c|e']; cbn.
  - destruct (_ <? _); cbn; [count_trace|].
    destruct e; cbn; count_trace.
  - destruct e'; cbn; count_trace.
Qed.

(** Over a whole delivery, however many runs it takes, the entry is marked
    completed at most once. *)
Lemma deliver_complete_count (policy : option P) (f : TaskBody) d id args fuel n w r w' :
  deliver policy f d id args fuel n w = (Some r, w') →
  ∃ evs, trace w' = trace w ++ evs ∧ (count is_complete evs ≤ 1)%nat.
Proof.
  revert n w. induction fuel as [|fuel IH]; intros n w; [done|].
  cbn [deliver].
  destruct (handle_complete_count policy f d n id args w) as (evs & Htr & Hle & Hretry).
  destruct (handle policy f (celery_task_at d n) id args w) as [[v|e] w1]; cbn in *.
  { intros [= <- <-]. by exists evs. }
  destruct e; try (intros [= <- <-]; by exists evs).
  intros Hrest. destruct (IH _ _ Hrest) as (evs' & Htr' & Hle').
  exists (evs ++ evs'). rewrite Htr', Htr, <- app_assoc. split; [done|].
  rewrite count_app, Hretry by eauto. lia.
Qed.
End WrapperFacts.

(** C3: when the task body raises and no retry policy is configured, the
    wrapper re-raises the exception having reconnected, fetched the log entry
    and run the body, and nothing else: the connection is neither committed
    nor closed. *)
Theorem handle_no_policy_raise_skips_close :
  ∀ (e : exn) (celery_task : CeleryTask) (id : Z) (args : Message) (w : world),
    handle (@None FibonacciBackoff.t) (λ _ _, Err e) celery_task id args w
    = (Err e,
       World (next_id w) (S (calls w))
         (trace w ++ [EvReconnect; EvGetById id; EvCall args])) ∧
    count is_close [EvReconnect; EvGetById id; EvCall args] = 0%nat ∧
    count is_commit [EvReconnect; EvGetById id; EvCall args] = 0%nat.
Proof. intros. split; [by apply handle_no_policy|done]. Qed.

(** C4: a task that always fails under a policy with [max_retries = 1] is run
    twice; the first run ends with the retry accepted, the second with the
    broker reporting exhaustion, upon which the log entry is marked completed,
    exactly once over the whole delivery.  The wrapper then returns normally:
    the task error the broker raised back is caught and not raised again. *)
Theorem exhausted_delivery_completes_once :
  ∀ (P : Type) (HP : RetryPolicy P) (p : P) (f : TaskBody) (e : exn) (c0 c1 : Z)
    (d id : Z) (args : Message) (fuel : nat) (w : world),
    max_retries p = Some 1 →
    countdown p 0 e = Ok c0 →
    countdown p 1 e = Ok c1 →
    (∀ run, f run args = Err e) →
    (∀ c, e ≠ Retry c) →
    (2 ≤ fuel)%nat →
    let first := [EvReconnect; EvGetById id; EvCall args;
                  EvRetry c0 (Some 1) e; EvClose] in
    let second := [EvReconnect; EvGetById id; EvCall args;
                   EvRetry c1 (Some 1) e; EvComplete id; EvCommit; EvClose] in
    deliver (Some p) f d id args fuel 0 w
    = (Some (Ok VNone),
       World (next_id w) (S (S (calls w))) (trace w ++ first ++ second)) ∧
    count is_complete first = 0%nat ∧
    count is_complete second = 1%nat ∧
    count is_complete (first ++ second) = 1%nat.
Proof.
  intros P HP p f e c0 c1 d id args fuel w Hmax Hc0 Hc1 Hf He Hfuel first second.
  split; [|done].
  destruct fuel as [|[|fuel]]; [lia|lia|].
  cbn [deliver].
  rewrite (handle_accepted p f d 0 id args w e c0); [|done|done|rewrite Hmax; cbn; lia].
  rewrite (handle_exhausted p f d 1 id args _ e c1); [|done|done|rewrite Hmax; cbn; lia|done].
  rewrite Hmax. cbn [next_id calls trace]. by rewrite <- app_assoc.
Qed.

Lemma exhausted_delivery_completes_once_witness :
  max_retries (FibonacciBackoff.make 1 None) = Some 1 ∧
  deliver (Some (FibonacciBackoff.make 1 None)) (always_fails (UserError "boom"))
    3 7 ∅ 2 0 fresh_world
  = (Some (Ok VNone),
     World 1 2
       ([EvReconnect; EvGetById 7; EvCall ∅;
         EvRetry 1 (Some 1) (UserError "boom"); EvClose] ++
        [EvReconnect; EvGetById 7; EvCall ∅;
         EvRetry 2 (Some 1) (UserError "boom"); EvComplete 7; EvCommit; EvClose])).
Proof.
  split; [reflexivity|].
  apply (exhausted_delivery_completes_once FibonacciBackoff.t _
           (FibonacciBackoff.make 1 None) (always_fails (UserError "boom"))
           (UserError "boom") 1 2 3 7 ∅ 2 fresh_world);
    [reflexivity|reflexivity|reflexivity|reflexivity|discriminate|lia].
Defined.

(** The delivery of C4 at a concrete input ends with the wrapper returning
    [None], not with the task error. *)
Lemma exhausted_delivery_error_not_surfaced :
  (deliver (Some (FibonacciBackoff.make 1 None)) (always_fails (UserError "boom"))
     3 7 ∅ 2 0 fresh_world).1 = Some (Ok VNone) ∧
  (deliver (Some (FibonacciBackoff.make 1 None)) (always_fails (UserError "boom"))
     3 7 ∅ 2 0 fresh_world).1 ≠ Some (Err (UserError "boom")).
Proof. split; [reflexivity|discriminate]. Qed.

(** Under a policy that gives a delay at the first two attempts and allows at
    least two retries, a task that fails twice and then succeeds is run three
    times; the first two runs end with the retry accepted and only close the
    connection, the third marks the log entry completed, exactly once over
    the whole delivery.  Whatever the policy and the body, a run that ends
    with the retry-accepted signal has neither marked the entry completed nor
    committed, and a delivery, however many runs it takes, marks the entry
    completed at most once. *)
Theorem retried_delivery_completes_once :
  ∀ (P : Type) (HP : RetryPolicy P) (p : P) (f : TaskBody) (e0 e1 : exn) (v : value)
    (c0 c1 : Z) (d id : Z) (args : Message) (fuel : nat) (w : world),
    2 ≤ default d (max_retries p) →
    countdown p 0 e0 = Ok c0 →
    countdown p 1 e1 = Ok c1 →
    f (calls w) args = Err e0 →
    f (S (calls w)) args = Err e1 →
    f (S (S (calls w))) args = Ok v →
    (3 ≤ fuel)%nat →
    let first := [EvReconnect; EvGetById id; EvCall args;
                  EvRetry c0 (max_retries p) e0; EvClose] in
    let second := [EvReconnect; EvGetById id; EvCall args;
                   EvRetry c1 (max_retries p) e1; EvClose] in
    let third := [EvReconnect; EvGetById id; EvCall args;
                  EvComplete id; EvCommit; EvClose] in
    (deliver (Some p) f d id args fuel 0 w
     = (Some (Ok v),
        World (next_id w) (S (S (S (calls w)))) (trace w ++ first ++ second ++ third)) ∧
     count is_complete first = 0%nat ∧
     count is_complete second = 0%nat ∧
     count is_complete third = 1%nat ∧
     count is_complete (first ++ second ++ third) = 1%nat) ∧
    (∀ (policy : option P) (g : TaskBody) (n : nat) (w' : world) (c : Z),
       (handle policy g (celery_task_at d n) id args w').1 = Err (Retry c) →
       ∃ evs,
         trace (handle policy g (celery_task_at d n) id args w').2 = trace w' ++ evs ∧
         count is_complete evs = 0%nat ∧ count is_commit evs = 0%nat) ∧
    (∀ (policy : option P) (g : TaskBody) (fuel' n : nat) (w' w'' : world) r,
       deliver policy g d id args fuel' n w' = (Some r, w'') →
       ∃ evs, trace w'' = trace w' ++ evs ∧ (count is_complete evs ≤ 1)%nat).
Proof.
  intros P HP p f e0 e1 v c0 c1 d id args fuel w Hmax Hc0 Hc1 Hf0 Hf1 Hf2 Hfuel
    first second third.
  split; [|split].
  2: { intros policy g n w' c Hc.
       by apply (handle_retry_exit_no_commit policy g d n id args w' c). }
  2: { intros policy g fuel' n w' w'' r Hrun.
       by apply (deliver_complete_count policy g d id args fuel' n w' r w''). }
  split; [|done].
  destruct fuel as [|[|[|fuel]]]; [lia|lia|lia|].
  cbn [deliver].
  rewrite (handle_accepted p f d 0 id args w e0 c0); [|done|done|lia].
  rewrite (handle_accepted p f d 1 id args _ e1 c1); [|done|done|lia].
  rewrite (handle_success (Some p) f _ id args _ v); [|done].
  cbn [next_id calls trace]. by rewrite <- !app_assoc.
Qed.

Lemma retried_delivery_completes_once_witness :
  2 ≤ default 3 (max_retries (FibonacciBackoff.make 2 None)) ∧
  deliver (Some (FibonacciBackoff.make 2 None))
    (fails_then_succeeds 2 (UserError "flaky") (VStr "sent")) 3 7 ∅ 3 0 fresh_world
  = (Some (Ok (VStr "sent")),
     World 1 3
       ([EvReconnect; EvGetById 7; EvCall ∅;
         EvRetry 1 (Some 2) (UserError "flaky"); EvClose] ++
        [EvReconnect; EvGetById 7; EvCall ∅;
         EvRetry 2 (Some 2) (UserError "flaky"); EvClose] ++
        [EvReconnect; EvGetById 7; EvCall ∅; EvComplete 7; EvCommit; EvClose])).
Proof.
  split; [cbn; lia|].
  destruct (retried_delivery_completes_once FibonacciBackoff.t _
              (FibonacciBackoff.make 2 None)
              (fails_then_succeeds 2 (UserError "flaky") (VStr "sent"))
              (UserError "flaky") (UserError "flaky") (VStr "sent") 1 2 3 7 ∅ 3
              fresh_world)
    as [[Hrun _] _];
    [cbn; lia|reflexivity|reflexivity|reflexivity|reflexivity|reflexivity|lia|].
  exact Hrun.
Defined.

(** C5: under the exponential policy without ceiling, whatever number of
    retries it allows, a task that would fail twice and then succeed is run
    once.  The policy raises while the delay is computed, the broker is not
    asked to retry, and the log entry is marked completed in this first,
    failed run; the delivery ends there with the wrapper returning normally,
    the second and the successful third run never taking place. *)
Theorem retried_delivery_without_ceiling_completes_early :
  ∀ (max_retries : Z) (e : exn) (v : value) (d id : Z) (args : Message)
    (fuel : nat) (n : Z) (tr : list event),
    deliver (Some (ExponentialBackoff.make max_retries None))
      (fails_then_succeeds 2 e v) d id args (S fuel) 0 (World n 0 tr)
    = (Some (Ok VNone),
       World n 1
         (tr ++ [EvReconnect; EvGetById id; EvCall args;
                 EvComplete id; EvCommit; EvClose])) ∧
    count is_complete [EvReconnect; EvGetById id; EvCall args;
                       EvComplete id; EvCommit; EvClose] = 1%nat.
Proof.
  intros max_retries e v d id args fuel n tr. split; [|done].
  cbn [deliver].
  by rewrite (handle_countdown_raises (ExponentialBackoff.make max_retries None)
                (fails_then_succeeds 2 e v) (celery_task_at d 0) id args
                (World n 0 tr) e TypeError).
Qed.

(** ** The validator *)

Section ValidatorFacts.
Implicit Types (m : Message) (entry : string * pytype).

(** Every schema entry is in exactly one of the three situations. *)
Lemma field_trichotomy m entry :
  field_ok m entry ∨ missing_field m entry ∨ type_mismatch m entry.
Proof.
  unfold field_ok, missing_field, type_mismatch.
  destruct (m !! entry.1) as [v|] eqn:Hm; [|by right; left].
  destruct (decide (entry.2 = Any)) as [Hany|Hany]; [left; eauto|].
  destruct (isinstance v entry.2) eqn:Hi; [left; eauto|right; right; eauto].
Qed.

(** The loop walks over a prefix of entries that are all in order and
    carries on with the rest, having copied exactly their fields. *)
Lemma _validate_loop_prefix m pre rest acc :
  Forall (field_ok m) pre →
  ∃ acc',
    _validate_loop (VDict m) (pre ++ rest) acc = _validate_loop (VDict m) rest acc' ∧
    dom acc' = dom acc ∪ list_to_set pre.*1 ∧
    ∀ k, acc' !! k = if decide (k ∈ pre.*1) then m !! k else acc !! k.
Proof.
  intros Hpre. revert acc.
  induction Hpre as [|[n t] pre (v & Hv & Hty) _ IH]; intros acc.
  - exists acc. split; [done|]. split; [set_solver|]. intros k.
    by rewrite decide_False by set_solver.
  - cbn in Hv, Hty. destruct (IH (<[n := v]> acc)) as (acc' & Hrun & Hdom & Hlook).
    exists acc'. split; [|split].
    + cbn. rewrite Hv.
      replace (negb (is_Any t) && negb (isinstance v t)) with false; [done|].
      destruct Hty as [-> | ->]; [done|]. by rewrite andb_false_r.
    + rewrite Hdom, dom_insert_L. set_solver.
    + intros k. rewrite Hlook. cbn.
      destruct (decide (k ∈ pre.*1)) as [Hin|Hin].
      * by rewrite decide_True by set_solver.
      * destruct (decide (n = k)) as [->|Hne].
        -- rewrite decide_True by set_solver. by rewrite lookup_insert_eq.
        -- rewrite decide_False by set_solver. by rewrite lookup_insert_ne.
Qed.

Lemma _validate_loop_missing m n t rest acc :
  missing_field m (n, t) →
  _validate_loop (VDict m) ((n, t) :: rest) acc = Err (MissingFieldError n).
Proof. unfold missing_field. cbn. by intros ->. Qed.

Lemma _validate_loop_mismatch m n t rest acc :
  type_mismatch m (n, t) →
  _validate_loop (VDict m) ((n, t) :: rest) acc = Err (TypeMismatchError n t).
Proof.
  intros (v & Hv & Hany & Hinst). cbn in *. rewrite Hv, Hinst.
  by destruct t.
Qed.

(** A schema is either fulfilled throughout or has a first entry that is not. *)
Lemma first_failure m (validation : Validation) :
  Forall (field_ok m) validation ∨
  ∃ pre n t post,
    validation = pre ++ (n, t) :: post ∧ Forall (field_ok m) pre ∧
    (missing_field m (n, t) ∨ type_mismatch m (n, t)).
Proof.
  induction validation as [|[n t] validation IH]; [by left|].
  destruct (field_trichotomy m (n, t)) as [Hok|Hbad].
  - destruct IH as [Hall|(pre & n' & t' & post & -> & Hpre & Hbad)].
    + left. by constructor.
    + right. exists ((n, t) :: pre), n', t', post. split; [done|].
      split; [by constructor|done].
  - right. by exists [], n, t, validation.
Qed.
End ValidatorFacts.

(** C8: validation walks the schema in its declared order and stops at the
    first entry that fails.  If the entries before [(n, t)] are all present
    and well typed and [n] is absent from the message, the result is the
    missing-field error for [n]; if instead [n] is present, [t] is not [Any]
    and the value is not of type [t], the result is the type-mismatch error
    for [n] and [t]; if every entry is present and well typed, the result is a
    mapping whose keys are exactly the declared names, each bound as in the
    message, so that other fields of the message are dropped.  One of the
    three cases always applies. *)
Theorem validate_reports_first_failure :
  ∀ (message : Message) (validation : Validation),
    (∀ pre n t post,
       validation = pre ++ (n, t) :: post →
       Forall (field_ok message) pre →
       missing_field message (n, t) →
       _validate (VDict message) validation = Err (MissingFieldError n)) ∧
    (∀ pre n t post,
       validation = pre ++ (n, t) :: post →
       Forall (field_ok message) pre →
       type_mismatch message (n, t) →
       _validate (VDict message) validation = Err (TypeMismatchError n t)) ∧
    (Forall (field_ok message) validation →
     ∃ validated,
       _validate (VDict message) validation = Ok validated ∧
       dom validated = list_to_set validation.*1 ∧
       ∀ k, k ∈ validation.*1 → validated !! k = message !! k) ∧
    (Forall (field_ok message) validation ∨
     ∃ pre n t post,
       validation = pre ++ (n, t) :: post ∧ Forall (field_ok message) pre ∧
       (missing_field message (n, t) ∨ type_mismatch message (n, t))).
Proof.
  intros message validation. split; [|split; [|split]].
  - intros pre n t post -> Hpre Hmiss. unfold _validate.
    destruct (_validate_loop_prefix message pre ((n, t) :: post) ∅ Hpre)
      as (acc & -> & _).
    by apply _validate_loop_missing.
  - intros pre n t post -> Hpre Hbad. unfold _validate.
    destruct (_validate_loop_prefix message pre ((n, t) :: post) ∅ Hpre)
      as (acc & -> & _).
    by apply _validate_loop_mismatch.
  - intros Hall. unfold _validate.
    destruct (_validate_loop_prefix message validation [] ∅ Hall)
      as (acc & Hrun & Hdom & Hlook).
    rewrite app_nil_r in Hrun. exists acc. split; [done|]. split.
    + rewrite Hdom, dom_empty_L. set_solver.
    + intros k Hk. by rewrite Hlook, decide_True.
  - apply first_failure.
Qed.

Lemma validate_reports_first_failure_witness :
  _validate (VDict message_without_text) text_number_schema
  = Err (MissingFieldError "text") ∧
  _validate (VDict message_bad_number) text_number_schema
  = Err (TypeMismatchError "number" TInt) ∧
  ∃ validated,
    _validate (VDict message_ok) text_number_schema = Ok validated ∧
    dom validated = list_to_set text_number_schema.*1 ∧
    ∀ k, k ∈ text_number_schema.*1 → validated !! k = message_ok !! k.
Proof.
  split; [|split].
  - destruct (validate_reports_first_failure message_without_text text_number_schema)
      as (Hmissing & _).
    apply (Hmissing [] "text" TStr [("number", TInt)]);
      [reflexivity|constructor|reflexivity].
  - destruct (validate_reports_first_failure message_bad_number text_number_schema)
      as (_ & Hmismatch & _).
    apply (Hmismatch [("text", TStr)] "number" TInt []); [reflexivity| |].
    + repeat constructor. exists (VStr "a"). split; [reflexivity|by right].
    + exists (VStr "x"). split; [reflexivity|]. split; [discriminate|reflexivity].
  - destruct (validate_reports_first_failure message_ok text_number_schema)
      as (_ & _ & Hok & _).
    apply Hok. repeat constructor.
    + exists (VStr "a"). split; [reflexivity|by right].
    + exists (VInt 1). split; [reflexivity|by right].
Defined.

(** The validator on the three messages of the schema above. *)
Example validate_message_ok :
  _validate (VDict message_ok) text_number_schema
  = Ok {[ "text" := VStr "a"; "number" := VInt 1 ]}.
Proof. reflexivity. Qed.

Example validate_message_without_text :
  _validate (VDict message_without_text) text_number_schema
  = Err (HTTPBadRequest "Missing required filed" "text is required").
Proof. reflexivity. Qed.

Example validate_message_bad_number :
  _validate (VDict message_bad_number) text_number_schema
  = Err (HTTPBadRequest "Invalid type" "number must be int type").
Proof. reflexivity. Qed.

(** A message that is not a dictionary cannot be indexed by a field name. *)
Example validate_none_message :
  _validate VNone text_number_schema = Err TypeError ∧ _validate VNone [] = Ok ∅.
Proof. done. Qed.

(** ** The registry and the producer *)

Section ProducerFacts.
Variable json_loads : string → option value.
Variable json_dumps : value → string.

Lemma _validate_queue_and_task_unknown_queue (_tasks : Registry) queue_name task_name :
  _tasks !! queue_name = None →
  _validate_queue_and_task _tasks queue_name task_name
  = Err (HTTPBadRequest "Undefined queue" (queue_name +:+ " is undefined queue")).
Proof. unfold _validate_queue_and_task. by intros ->. Qed.

Lemma _validate_queue_and_task_unknown_task (_tasks : Registry) queue_name task_name
    (queue_tasks : gmap string TaskEntry) :
  _tasks !! queue_name = Some queue_tasks →
  queue_tasks !! task_name = None →
  _validate_queue_and_task _tasks queue_name task_name
  = Err (HTTPBadRequest "Undefined task" (task_name +:+ " is undefined task")).
Proof. unfold _validate_queue_and_task. by intros -> ->. Qed.

(** A lookup that fails ends the request with the world as it was. *)
Lemma on_post_lookup_fails (_tasks : Registry) req queue_name task_name w e :
  _validate_queue_and_task _tasks queue_name task_name = Err e →
  on_post json_loads json_dumps _tasks req queue_name task_name w = (Err e, w).
Proof. intros Hlookup. run_producer. by rewrite Hlookup. Qed.

(** A request that gets as far as the message creates the log entry and then
    folds and validates; a failure there leaves the entry created and the
    broker not called. *)
Lemma on_post_validation_fails (_tasks : Registry) req queue_name task_name w
    task validation preprocessors payload message e :
  _validate_queue_and_task _tasks queue_name task_name
  = Ok (Build_Processor task validation, preprocessors) →
  stream req ≠ "" →
  json_loads (stream req) = Some payload →
  getitem payload "message" = Ok message →
  result_bind (_recurse message preprocessors) (λ m, _validate m validation) = Err e →
  on_post json_loads json_dumps _tasks req queue_name task_name w
  = (Err e,
     World (next_id w + 1) (calls w)
       (trace w ++ [EvStreamRead;
                    EvCreate (next_id w) queue_name task_name (json_dumps message)])).
Proof.
  intros Hlookup Hbody Hjson Hmsg Hfail. run_producer.
  rewrite Hlookup. cbn.
  destruct (String.eqb_spec (stream req) "") as [?|_]; [done|].
  rewrite Hjson. cbn. rewrite Hmsg. cbn. rewrite Hfail. cbn.
  by tidy_trace.
Qed.
(** The fold followed by the task's validation fails exactly in one of the
    three ways of [dispatch_failure]. *)
Lemma dispatch_failure_iff schema e message preprocessors :
  dispatch_failure schema e message preprocessors ↔
  result_bind (_recurse message preprocessors) (λ m, _validate m schema) = Err e.
Proof.
  split.
  - induction 1 as [message p tail Hv|message p tail kwargs Hv Hf
                   |message p tail kwargs message' Hv Hf _ IH|message Hv]; cbn.
    + by rewrite Hv.
    + by rewrite Hv, Hf.
    + by rewrite Hv, Hf.
    + done.
  - revert message. induction preprocessors as [|p tail IH]; intros message; cbn.
    + by constructor.
    + destruct (_validate message (validation p)) as [kwargs|e'] eqn:Hv; cbn.
      * destruct (func p kwargs) as [message'|e'] eqn:Hf; cbn.
        -- intros Hrest. eapply preprocessor_passes; eauto.
        -- intros [= ->]. by eapply preprocessor_execution_fails.
      * intros [= ->]. by apply preprocessor_validation_fails.
Qed.

(** A request that passes the fold and the validation: the log entry is
    created first, then the broker is given the validated arguments and the
    entry's id, then the log is pruned. *)
Lemma on_post_accepted (_tasks : Registry) req queue_name task_name w
    task validation preprocessors payload message args delay :
  _validate_queue_and_task _tasks queue_name task_name
  = Ok (Build_Processor task validation, preprocessors) →
  stream req ≠ "" →
  json_loads (stream req) = Some payload →
  getitem payload "message" = Ok message →
  result_bind (_recurse message preprocessors) (λ m, _validate m validation) = Ok args →
  payload_get_delay payload = Ok delay →
  on_post json_loads json_dumps _tasks req queue_name task_name w
  = (Ok {| status := "202 Accepted"; body := "{}" |},
     World (next_id w + 1) (calls w)
       (trace w ++ [EvStreamRead;
                    EvCreate (next_id w) queue_name task_name (json_dumps message);
                    EvApplyAsync task.1 task.2 (next_id w) args delay;
                    EvEliminate queue_name task_name])).
Proof.
  intros Hlookup Hbody Hjson Hmsg Hargs Hdelay. run_producer.
  rewrite Hlookup. cbn.
  destruct (String.eqb_spec (stream req) "") as [?|_]; [done|].
  rewrite Hjson. cbn. rewrite Hmsg. cbn. rewrite Hargs. cbn. rewrite Hdelay. cbn.
  by tidy_trace.
Qed.
End ProducerFacts.

(** C2: when the fold over the preprocessors or the validation against the
    task's schema fails, the request ends with that error after the body was
    read and the log entry created, and before the broker is called or the
    log pruned: since the request began there is one [createEntry] and no
    submission. *)
Theorem failed_dispatch_creates_entry_without_submission :
  ∀ (json_loads : string → option value) (json_dumps : value → string)
    (_tasks : Registry) (req : Request) (queue_name task_name : string) (w : world)
    (task : string * string) (validation : Validation)
    (preprocessors : list (Processor (Message → result value)))
    (payload message : value) (e : exn),
    _validate_queue_and_task _tasks queue_name task_name
    = Ok (Build_Processor task validation, preprocessors) →
    stream req ≠ "" →
    json_loads (stream req) = Some payload →
    getitem payload "message" = Ok message →
    dispatch_failure validation e message preprocessors →
    let evs := [EvStreamRead;
                EvCreate (next_id w) queue_name task_name (json_dumps message)] in
    on_post json_loads json_dumps _tasks req queue_name task_name w
    = (Err e, World (next_id w + 1) (calls w) (trace w ++ evs)) ∧
    count is_create evs = 1%nat ∧
    count is_apply_async evs = 0%nat.
Proof.
  intros json_loads json_dumps _tasks req queue_name task_name w task validation
    preprocessors payload message e Hlookup Hbody Hjson Hmsg Hfail evs.
  split; [|done]. eapply on_post_validation_fails; eauto.
  by apply dispatch_failure_iff.
Qed.

Lemma failed_dispatch_creates_entry_without_submission_witness :
  on_post (decode_as (VDict {[ "message" := VDict {[ "text" := VInt 1 ]} ]}))
    (encode_as "message") test_registry {| stream := "body" |}
    "test_queue" "task_for_preprocessor_test" fresh_world
  = (Err (HTTPBadRequest "Invalid type" "text must be str type"),
     World 2 0
       [EvStreamRead; EvCreate 1 "test_queue" "task_for_preprocessor_test" "message"]).
Proof.
  destruct (failed_dispatch_creates_entry_without_submission
              (decode_as (VDict {[ "message" := VDict {[ "text" := VInt 1 ]} ]}))
              (encode_as "message") test_registry {| stream := "body" |}
              "test_queue" "task_for_preprocessor_test" fresh_world
              ("test_queue", "task_for_preprocessor_test") []
              [Build_Processor (call preprocessor_for_preprocessor_test) [("text", TStr)]]
              (VDict {[ "message" := VDict {[ "text" := VInt 1 ]} ]})
              (VDict {[ "text" := VInt 1 ]})
              (HTTPBadRequest "Invalid type" "text must be str type"))
    as [Hrun _];
    [reflexivity|discriminate|reflexivity|reflexivity
    |apply preprocessor_validation_fails; reflexivity|].
  exact Hrun.
Defined.

(** A request whose message lacks the field its preprocessor requires fails,
    and the log entry has been created by then. *)
Lemma failed_dispatch_has_created_entry :
  (on_post (decode_as (VDict {[ "message" := VDict ∅ ]})) (encode_as "message")
     test_registry {| stream := "body" |}
     "test_queue" "task_for_preprocessor_test" fresh_world).1
  = Err (HTTPBadRequest "Missing required filed" "text is required") ∧
  trace (on_post (decode_as (VDict {[ "message" := VDict ∅ ]})) (encode_as "message")
           test_registry {| stream := "body" |}
           "test_queue" "task_for_preprocessor_test" fresh_world).2
  = [EvStreamRead; EvCreate 1 "test_queue" "task_for_preprocessor_test" "message"] ∧
  count is_create
    (trace (on_post (decode_as (VDict {[ "message" := VDict ∅ ]})) (encode_as "message")
              test_registry {| stream := "body" |}
              "test_queue" "task_for_preprocessor_test" fresh_world).2) ≠ 0%nat.
Proof. split; [reflexivity|]. split; [reflexivity|discriminate]. Qed.

(** C9: a request for a queue that is not in the registry fails with the
    undefined-queue error, one for a registered queue and a task that is not
    registered under it with the undefined-task error; the two errors differ
    in their title; in both cases the world is as before the request, the
    body not having been read. *)
Theorem unknown_queue_and_unknown_task_are_distinct :
  ∀ (json_loads : string → option value) (json_dumps : value → string)
    (_tasks : Registry) (req : Request) (queue_name task_name : string) (w : world),
    (_tasks !! queue_name = None →
     on_post json_loads json_dumps _tasks req queue_name task_name w
     = (Err (HTTPBadRequest "Undefined queue" (queue_name +:+ " is undefined queue")),
        w)) ∧
    (∀ queue_tasks : gmap string TaskEntry,
       _tasks !! queue_name = Some queue_tasks →
       queue_tasks !! task_name = None →
       on_post json_loads json_dumps _tasks req queue_name task_name w
       = (Err (HTTPBadRequest "Undefined task" (task_name +:+ " is undefined task")),
          w)) ∧
    (∀ d1 d2, HTTPBadRequest "Undefined queue" d1 ≠ HTTPBadRequest "Undefined task" d2).
Proof.
  intros json_loads json_dumps _tasks req queue_name task_name w.
  split; [|split].
  - intros Hq. apply on_post_lookup_fails.
    by apply _validate_queue_and_task_unknown_queue.
  - intros queue_tasks Hq Ht. apply on_post_lookup_fails.
    by eapply _validate_queue_and_task_unknown_task.
  - intros d1 d2. discriminate.
Qed.

Lemma unknown_queue_and_unknown_task_are_distinct_witness :
  on_post (decode_as VNone) (encode_as "message") test_registry {| stream := "body" |}
    "ghost" "run" fresh_world
  = (Err (HTTPBadRequest "Undefined queue" "ghost is undefined queue"), fresh_world) ∧
  on_post (decode_as VNone) (encode_as "message") test_registry {| stream := "body" |}
    "test_queue" "run" fresh_world
  = (Err (HTTPBadRequest "Undefined task" "run is undefined task"), fresh_world).
Proof.
  split.
  - destruct (unknown_queue_and_unknown_task_are_distinct (decode_as VNone)
                (encode_as "message") test_registry {| stream := "body" |}
                "ghost" "run" fresh_world) as (Hqueue & _).
    apply Hqueue. reflexivity.
  - destruct (unknown_queue_and_unknown_task_are_distinct (decode_as VNone)
                (encode_as "message") test_registry {| stream := "body" |}
                "test_queue" "run" fresh_world) as (_ & Htask & _).
    eapply Htask; reflexivity.
Defined.

Section RegistryFacts.
Implicit Types (_tasks : Registry) (name : string).

Lemma defaultdict_getitem_lookup _tasks name :
  (defaultdict_getitem _tasks name).2 !! name = Some (default ∅ (_tasks !! name)).
Proof.
  unfold defaultdict_getitem. destruct (_tasks !! name) as [d|] eqn:Hd; cbn.
  - done.
  - by rewrite lookup_insert_eq.
Qed.

(** Reading through the [defaultdict] leaves every other queue alone. *)
Lemma defaultdict_getitem_other _tasks name name' :
  name ≠ name' →
  (defaultdict_getitem _tasks name).2 !! name' = _tasks !! name'.
Proof.
  intros Hne. unfold defaultdict_getitem.
  destruct (_tasks !! name); cbn; [done|]. by rewrite lookup_insert_ne.
Qed.

Lemma elem_of__list_queue_name _tasks name :
  name ∈ _list_queue_name _tasks ↔ is_Some (_tasks !! name).
Proof.
  unfold _list_queue_name. rewrite merge_sort_Permutation, list_elem_of_fmap.
  split.
  - intros ([k d] & -> & Hin). apply elem_of_map_to_list in Hin. by exists d.
  - intros [d Hd]. exists (name, d). split; [done|]. by apply elem_of_map_to_list.
Qed.

Lemma Brokkoly__init__reserved name broker _tasks :
  String.prefix "_" name = true →
  Brokkoly__init__ name broker _tasks
  = Err (BrokkolyError "Queue name starting with _ is not allowed.").
Proof. unfold Brokkoly__init__. by intros ->. Qed.
#[local] Instance string_le_total : Total string_le.
Proof. intros a b. apply String.leb_total. Qed.

Lemma _list_queue_name_sorted _tasks : Sorted string_le (_list_queue_name _tasks).
Proof. apply Sorted_merge_sort, _. Qed.
End RegistryFacts.

(** C10: constructing a [Brokkoly] for a queue under which no task is
    registered puts the queue's name into the registry: afterwards the queue
    is in the queue listing, a request for any task of it fails with the
    undefined-task error, and the listing of its tasks is the empty
    sequence. *)
Theorem constructed_queue_is_registered :
  ∀ (name broker : string) (_tasks : Registry),
    String.prefix "_" name = false →
    (∀ queue_tasks : gmap string TaskEntry,
       _tasks !! name = Some queue_tasks → queue_tasks = ∅) →
    ∃ self _tasks',
      Brokkoly__init__ name broker _tasks = Ok (self, _tasks') ∧
      name ∈ _list_queue_name _tasks' ∧
      (∀ json_loads json_dumps req task_name w,
         on_post json_loads json_dumps _tasks' req name task_name w
         = (Err (HTTPBadRequest "Undefined task" (task_name +:+ " is undefined task")),
            w)) ∧
      _list_task_name _tasks' name = Ok [] ∧
      TaskListResource_on_get _tasks' name = Ok [].
Proof.
  intros name broker _tasks Hname Hempty.
  exists {| queue := name |}, (defaultdict_getitem _tasks name).2.
  assert ((defaultdict_getitem _tasks name).2 !! name = Some ∅) as Hlookup.
  { rewrite defaultdict_getitem_lookup.
    destruct (_tasks !! name) as [d|] eqn:Hd; [|done]. cbn. by rewrite (Hempty d). }
  split; [unfold Brokkoly__init__; by rewrite Hname|].
  split; [by apply elem_of__list_queue_name|].
  split; [|split].
  - intros. apply on_post_lookup_fails.
    by apply (_validate_queue_and_task_unknown_task _ _ _ ∅).
  - unfold _list_task_name. rewrite Hlookup. by rewrite map_to_list_empty.
  - unfold TaskListResource_on_get, _list_task_name. rewrite Hlookup.
    by rewrite map_to_list_empty.
Qed.

Lemma constructed_queue_is_registered_witness :
  ∃ self _tasks',
    Brokkoly__init__ "test_queue" "test_broker" ∅ = Ok (self, _tasks') ∧
    "test_queue" ∈ _list_queue_name _tasks' ∧
    (∀ json_loads json_dumps req task_name w,
       on_post json_loads json_dumps _tasks' req "test_queue" task_name w
       = (Err (HTTPBadRequest "Undefined task" (task_name +:+ " is undefined task")),
          w)) ∧
    _list_task_name _tasks' "test_queue" = Ok [] ∧
    TaskListResource_on_get _tasks' "test_queue" = Ok [].
Proof.
  apply (constructed_queue_is_registered "test_queue" "test_broker" ∅);
    [reflexivity|].
  intros queue_tasks Hlookup. rewrite lookup_empty in Hlookup. discriminate.
Defined.

(** Without the constructor the same queue is unknown to both listings and to
    the producer. *)
Example unconstructed_queue_is_unknown :
  _list_queue_name ∅ = [] ∧
  _list_task_name ∅ "test_queue" = Err KeyError ∧
  TaskListResource_on_get ∅ "test_queue"
  = Err (HTTPNotFound "Undefined queue" "test_queue is undefined queue") ∧
  _validate_queue_and_task ∅ "test_queue" "run"
  = Err (HTTPBadRequest "Undefined queue" "test_queue is undefined queue").
Proof. done. Qed.

(** A request that is accepted: the preprocessor has turned the number into a
    text, the entry was created before the broker was called, and the broker
    received the validated text, the entry's id and the requested delay. *)
Example accepted_dispatch :
  on_post
    (decode_as (VDict {[ "message" := VDict {[ "number" := VInt 1 ]};
                         "delay" := VInt 30 ]}))
    (encode_as "message") test_registry_with_text {| stream := "body" |}
    "test_queue" "task_with_text" fresh_world
  = (Ok {| status := "202 Accepted"; body := "{}" |},
     World 2 0
       [EvStreamRead;
        EvCreate 1 "test_queue" "task_with_text" "message";
        EvApplyAsync "test_queue" "task_with_text" 1 {[ "text" := VStr "1" ]} (VInt 30);
        EvEliminate "test_queue" "task_with_text"]).
Proof. reflexivity. Qed.

(** Registering the same task twice, and a reserved queue name. *)
Example registration_errors :
  Brokkoly_task {| queue := "test_queue" |} [] task_for_preprocessor_test test_registry
  = Err (BrokkolyError "task_for_preprocessor_test is already registered.") ∧
  Brokkoly__init__ "_queue" "test_broker" ∅
  = Err (BrokkolyError "Queue name starting with _ is not allowed.").
Proof. done. Qed.

(** * Further properties of the code *)

(** ** Retry policies *)

(** X1: with any ceiling [m], attempt 0 of the Fibonacci policy yields 1
    without the ceiling being consulted; every later attempt yields the
    ceiling if the Fibonacci delay has reached it, and the delay otherwise. *)
Theorem fibonacci_countdown_any_ceiling :
  ∀ (max_retries m : Z) (error : exn) (i : nat),
    FibonacciBackoff.countdown (FibonacciBackoff.make max_retries (Some m)) i error
    = Ok (match i with
          | O => 1
          | S _ => if m <=? fib_delay i then m else fib_delay i
          end).
Proof.
  intros max_retries m error [|i]; [done|].
  unfold FibonacciBackoff.countdown. f_equal.
  apply (countdown_loop_bounded m i 0).
Qed.

(** X2: with a ceiling of at least one second, the delays of the Fibonacci
    policy never decrease from one attempt to a later one and never exceed
    the ceiling. *)
Theorem fibonacci_countdown_monotone_bounded :
  ∀ (max_retries m : Z) (error : exn) (i j : nat),
    1 ≤ m →
    (i ≤ j)%nat →
    ∃ a b,
      FibonacciBackoff.countdown (FibonacciBackoff.make max_retries (Some m)) i error
      = Ok a ∧
      FibonacciBackoff.countdown (FibonacciBackoff.make max_retries (Some m)) j error
      = Ok b ∧
      1 ≤ a ∧ a ≤ b ∧ b ≤ m.
Proof.
  intros max_retries m error i j Hm Hij.
  rewrite !countdown_ceiling by done. eexists _, _. split; [done|]. split; [done|].
  pose proof (fib_delay_mono i (j - i)) as Hmono.
  replace (i + (j - i))%nat with j in Hmono by lia.
  pose proof (fib_pair_pos i) as [_ Hpos]. fold (fib_delay i) in Hpos.
  destruct (Z.leb_spec m (fib_delay i)), (Z.leb_spec m (fib_delay j)); lia.
Qed.

Lemma fibonacci_countdown_monotone_bounded_witness :
  ∃ a b,
    FibonacciBackoff.countdown (FibonacciBackoff.make 10 (Some 80)) 3 (UserError "boom")
    = Ok a ∧
    FibonacciBackoff.countdown (FibonacciBackoff.make 10 (Some 80)) 9 (UserError "boom")
    = Ok b ∧
    1 ≤ a ∧ a ≤ b ∧ b ≤ 80.
Proof.
  apply (fibonacci_countdown_monotone_bounded 10 80 (UserError "boom") 3 9); lia.
Defined.

(** X3: with a ceiling below one second the Fibonacci policy still waits one
    second at attempt 0, more than the ceiling, and then drops to the
    ceiling at every later attempt. *)
Theorem fibonacci_countdown_low_ceiling :
  ∀ (max_retries m : Z) (error : exn) (i : nat),
    m < 1 →
    FibonacciBackoff.countdown (FibonacciBackoff.make max_retries (Some m)) 0 error
    = Ok 1 ∧
    FibonacciBackoff.countdown (FibonacciBackoff.make max_retries (Some m)) (S i) error
    = Ok m.
Proof.
  intros max_retries m error i Hm. split; [done|].
  unfold FibonacciBackoff.countdown. f_equal.
  etransitivity; [apply (countdown_loop_bounded m i 0)|].
  pose proof (fib_pair_pos (S i)) as [_ Hpos]. fold (fib_delay (S i)) in Hpos.
  cbn [Nat.add]. destruct (Z.leb_spec m (fib_delay (S i))); [done|lia].
Qed.

Lemma fibonacci_countdown_low_ceiling_witness :
  FibonacciBackoff.countdown (FibonacciBackoff.make 10 (Some 0)) 0 (UserError "boom")
  = Ok 1 ∧
  FibonacciBackoff.countdown (FibonacciBackoff.make 10 (Some 0)) 4 (UserError "boom")
  = Ok 0.
Proof.
  apply (fibonacci_countdown_low_ceiling 10 0 (UserError "boom") 3). lia.
Defined.

(** X4: with a ceiling configured, the delays of the exponential policy never
    decrease from one attempt to a later one, and each is at least the
    ceiling and at least the computed power of two: the configured value
    bounds the delay from below, not from above. *)
Theorem exponential_countdown_floor :
  ∀ (max_retries m : Z) (error : exn) (i j : nat),
    (i ≤ j)%nat →
    ∃ a b,
      ExponentialBackoff.countdown (ExponentialBackoff.make max_retries (Some m)) i error
      = Ok a ∧
      ExponentialBackoff.countdown (ExponentialBackoff.make max_retries (Some m)) j error
      = Ok b ∧
      m ≤ a ∧ 2 ^ (Z.of_nat i + 1) ≤ a ∧ a ≤ b.
Proof.
  intros max_retries m error i j Hij.
  rewrite !exponential_countdown_max. eexists _, _. split; [done|]. split; [done|].
  assert (2 ^ (Z.of_nat i + 1) ≤ 2 ^ (Z.of_nat j + 1)) by (apply Z.pow_le_mono_r; lia).
  lia.
Qed.

Lemma exponential_countdown_floor_witness :
  ∃ a b,
    ExponentialBackoff.countdown (ExponentialBackoff.make 3 (Some 5)) 0 (UserError "boom")
    = Ok a ∧
    ExponentialBackoff.countdown (ExponentialBackoff.make 3 (Some 5)) 2 (UserError "boom")
    = Ok b ∧
    5 ≤ a ∧ 2 ^ (Z.of_nat 0 + 1) ≤ a ∧ a ≤ b.
Proof.
  apply (exponential_countdown_floor 3 5 (UserError "boom") 0 2). lia.
Defined.

(** ** The validator and the fold *)

Section ValidatorMoreFacts.
Implicit Types (m r : Message) (schema : Validation).

(** A validation that succeeds: every entry was in order, and the result
    holds the declared names, bound as in the message, and nothing else. *)
Lemma _validate_Ok_inv m schema r :
  _validate (VDict m) schema = Ok r →
  Forall (field_ok m) schema ∧
  ∀ k, r !! k = if decide (k ∈ schema.*1) then m !! k else None.
Proof.
  intros Hr. destruct (first_failure m schema)
    as [Hall|(pre & n & t & post & -> & Hpre & Hbad)].
  - split; [done|].
    destruct (_validate_loop_prefix m schema [] ∅ Hall) as (acc & Hrun & _ & Hlook).
    rewrite app_nil_r in Hrun. unfold _validate in Hr. rewrite Hrun in Hr.
    cbn in Hr. injection Hr as <-. intros k. rewrite Hlook.
    by rewrite lookup_empty.
  - exfalso. unfold _validate in Hr.
    destruct (_validate_loop_prefix m pre ((n, t) :: post) ∅ Hpre) as (acc & Hrun & _).
    rewrite Hrun in Hr. destruct Hbad as [Hmiss|Hmis].
    + by rewrite (_validate_loop_missing m n t post acc Hmiss) in Hr.
    + by rewrite (_validate_loop_mismatch m n t post acc Hmis) in Hr.
Qed.

Lemma _validate_Ok_intro m schema r :
  Forall (field_ok m) schema →
  (∀ k, r !! k = if decide (k ∈ schema.*1) then m !! k else None) →
  _validate (VDict m) schema = Ok r.
Proof.
  intros Hall Hr.
  destruct (_validate_loop_prefix m schema [] ∅ Hall) as (acc & Hrun & _ & Hlook).
  rewrite app_nil_r in Hrun. unfold _validate. rewrite Hrun. cbn. f_equal.
  apply map_eq. intros k. rewrite Hlook, Hr. by rewrite lookup_empty.
Qed.

Lemma _validate_loop_agree m1 m2 schema acc :
  (∀ k, k ∈ schema.*1 → m1 !! k = m2 !! k) →
  _validate_loop (VDict m1) schema acc = _validate_loop (VDict m2) schema acc.
Proof.
  revert acc. induction schema as [|[n t] schema IH]; intros acc Hagree; [done|].
  cbn. rewrite (Hagree n) by set_solver.
  destruct (m2 !! n) as [v|]; [|done].
  destruct (negb (is_Any t) && negb (isinstance v t)); [done|].
  apply IH. intros k Hk. apply Hagree. set_solver.
Qed.

Lemma _recurse_app message ps qs :
  _recurse message (ps ++ qs)
  = result_bind (_recurse message ps) (λ message', _recurse message' qs).
Proof.
  revert message. induction ps as [|p ps IH]; intros message; [done|].
  cbn. destruct (_validate message (validation p)) as [kwargs|e]; [|done].
  destruct (func p kwargs) as [message'|e]; [|done]. apply IH.
Qed.
End ValidatorMoreFacts.

(** X5: validating the result of a successful validation against the same
    schema succeeds and returns it unchanged. *)
Theorem validate_idempotent :
  ∀ (message validated : Message) (schema : Validation),
    _validate (VDict message) schema = Ok validated →
    _validate (VDict validated) schema = Ok validated.
Proof.
  intros message validated schema Hr.
  destruct (_validate_Ok_inv message schema validated Hr) as [Hall Hlook].
  apply _validate_Ok_intro.
  - apply Forall_forall. intros [n t] Hin.
    rewrite Forall_forall in Hall. destruct (Hall _ Hin) as (v & Hv & Hty).
    exists v. split; [|done]. cbn in *. rewrite Hlook.
    rewrite decide_True; [done|]. apply list_elem_of_fmap. by exists (n, t).
  - intros k. rewrite Hlook. by destruct (decide (k ∈ schema.*1)).
Qed.

Lemma validate_idempotent_witness :
  _validate (VDict {[ "text" := VStr "a"; "number" := VInt 1 ]}) text_number_schema
  = Ok {[ "text" := VStr "a"; "number" := VInt 1 ]}.
Proof.
  apply (validate_idempotent message_ok). reflexivity.
Defined.

(** X6: the outcome of a validation, result or error, depends only on the
    fields the schema declares: two messages that agree on them are
    validated alike. *)
Theorem validate_depends_on_declared_fields :
  ∀ (message1 message2 : Message) (schema : Validation),
    (∀ k, k ∈ schema.*1 → message1 !! k = message2 !! k) →
    _validate (VDict message1) schema = _validate (VDict message2) schema.
Proof. intros message1 message2 schema Hagree. by apply _validate_loop_agree. Qed.

Lemma validate_depends_on_declared_fields_witness :
  _validate (VDict message_ok) text_number_schema
  = _validate (VDict {[ "text" := VStr "a"; "number" := VInt 1 ]}) text_number_schema.
Proof.
  apply validate_depends_on_declared_fields.
  intros k Hk. cbn in Hk.
  apply elem_of_cons in Hk as [->|Hk]; [reflexivity|].
  apply elem_of_cons in Hk as [->|Hk]; [reflexivity|].
  by apply elem_of_nil in Hk.
Defined.

(** X7: a successful validation returns a part of the message: it changes no
    value and adds no field. *)
Theorem validate_returns_submap :
  ∀ (message validated : Message) (schema : Validation),
    _validate (VDict message) schema = Ok validated →
    validated ⊆ message.
Proof.
  intros message validated schema Hr.
  destruct (_validate_Ok_inv message schema validated Hr) as [_ Hlook].
  apply map_subseteq_spec. intros k v. rewrite Hlook.
  by destruct (decide (k ∈ schema.*1)).
Qed.

Lemma validate_returns_submap_witness :
  ({[ "text" := VStr "a"; "number" := VInt 1 ]} : Message) ⊆ message_ok.
Proof.
  apply (validate_returns_submap message_ok _ text_number_schema). reflexivity.
Defined.

(** X8: the fold over a chain of preprocessors that is the concatenation of
    two chains is the fold over the first followed, on its result, by the
    fold over the second; an error in the first ends it. *)
Theorem recurse_concatenation :
  ∀ (message : value) (ps qs : list (Processor (Message → result value))),
    _recurse message (ps ++ qs)
    = match _recurse message ps with
      | Ok message' => _recurse message' qs
      | Err e => Err e
      end.
Proof. intros. apply _recurse_app. Qed.

(** X9: when the value handed to the validator is not a dictionary, as after
    a preprocessor that returns nothing, a schema with at least one entry
    fails with [TypeError], not with a bad-request error; the empty schema
    accepts any value and yields the empty mapping. *)
Theorem validate_non_dictionary :
  ∀ (message : value) (n : string) (t : pytype) (schema : Validation),
    (∀ d, message ≠ VDict d) →
    _validate message ((n, t) :: schema) = Err TypeError ∧
    _validate message [] = Ok ∅.
Proof.
  intros message n t schema Hnd. split; [|done].
  destruct message; try done. by destruct (Hnd d).
Qed.

Lemma validate_non_dictionary_witness :
  _validate VNone (("text", TStr) :: []) = Err TypeError ∧ _validate VNone [] = Ok ∅.
Proof. apply validate_non_dictionary. discriminate. Defined.

(** ** Schemas derived from signatures *)

Section SchemaFacts.
Implicit Types (args : Validation) (k : string) (t : pytype).




End SchemaFacts.



(** ** The registry *)

(** X11: a queue name that starts with an underscore is refused; any other
    name gives an instance for that queue and a registry in which the tasks
    already registered, under this queue and under every other, are as
    before, a queue not seen before having no task. *)
Theorem constructor_keeps_registered_tasks :
  ∀ (name broker : string) (_tasks : Registry),
    if String.prefix "_" name
    then Brokkoly__init__ name broker _tasks
         = Err (BrokkolyError "Queue name starting with _ is not allowed.")
    else ∃ _tasks',
      Brokkoly__init__ name broker _tasks = Ok ({| queue := name |}, _tasks') ∧
      _tasks' !! name = Some (default ∅ (_tasks !! name)) ∧
      ∀ other, other ≠ name → _tasks' !! other = _tasks !! other.
Proof.
  intros name broker _tasks. unfold Brokkoly__init__.
  destruct (String.prefix "_" name); [done|].
  eexists. split; [done|]. split.
  - apply defaultdict_getitem_lookup.
  - intros other Hne. by apply defaultdict_getitem_other.
Qed.

(** X12: registering a task whose name is free under the instance's queue
    succeeds; afterwards the lookup of that queue and task returns the task
    with the schema derived from its signature and its preprocessors, in
    order, with theirs, and every other lookup answers as before. *)
Theorem registration_then_lookup :
  ∀ (self : Brokkoly) (preprocessors : list Callable) (f : Callable)
    (_tasks : Registry) (queue_tasks : gmap string TaskEntry),
    _tasks !! queue self = Some queue_tasks →
    queue_tasks !! co_name f = None →
    ∃ _tasks',
      Brokkoly_task self preprocessors f _tasks = Ok _tasks' ∧
      _validate_queue_and_task _tasks' (queue self) (co_name f)
      = Ok (Build_Processor (queue self, co_name f) (_prepare_validation f),
            (λ p, Build_Processor (call p) (_prepare_validation p)) <$> preprocessors) ∧
      ∀ queue_name task_name,
        (queue_name, task_name) ≠ (queue self, co_name f) →
        _validate_queue_and_task _tasks' queue_name task_name
        = _validate_queue_and_task _tasks queue_name task_name.
Proof.
  intros self preprocessors f _tasks queue_tasks Hq Hfree.
  unfold Brokkoly_task. rewrite Hq. cbn. rewrite Hfree.
  eexists. split; [done|]. unfold _validate_queue_and_task. split.
  - by rewrite !lookup_insert_eq.
  - intros queue_name task_name Hne.
    destruct (decide (queue_name = queue self)) as [->|Hqne].
    + rewrite lookup_insert_eq, Hq.
      rewrite lookup_insert_ne; [done|]. intros <-. by apply Hne.
    + by rewrite lookup_insert_ne.
Qed.

Lemma registration_then_lookup_witness :
  ∃ _tasks',
    Brokkoly_task {| queue := "test_queue" |} [preprocessor_number_to_text]
      task_with_text test_registry = Ok _tasks' ∧
    _validate_queue_and_task _tasks' "test_queue" "task_with_text"
    = Ok (Build_Processor ("test_queue", "task_with_text")
            (_prepare_validation task_with_text),
          (λ p, Build_Processor (call p) (_prepare_validation p))
            <$> [preprocessor_number_to_text]) ∧
    ∀ queue_name task_name,
      (queue_name, task_name) ≠ ("test_queue", "task_with_text") →
      _validate_queue_and_task _tasks' queue_name task_name
      = _validate_queue_and_task test_registry queue_name task_name.
Proof.
  eapply (registration_then_lookup {| queue := "test_queue" |}
            [preprocessor_number_to_text] task_with_text test_registry);
    reflexivity.
Defined.

(** X13: once a task is registered, registering a callable of the same name
    under the same queue is refused, whatever its preprocessors. *)
Theorem registration_twice_refused :
  ∀ (self : Brokkoly) (preprocessors preprocessors' : list Callable)
    (f f' : Callable) (_tasks _tasks' : Registry),
    Brokkoly_task self preprocessors f _tasks = Ok _tasks' →
    co_name f' = co_name f →
    Brokkoly_task self preprocessors' f' _tasks'
    = Err (BrokkolyError (co_name f' +:+ " is already registered.")).
Proof.
  intros self preprocessors preprocessors' f f' _tasks _tasks' Hreg Hname.
  unfold Brokkoly_task in *.
  destruct (default ∅ (_tasks !! queue self) !! co_name f); [done|].
  injection Hreg as <-. rewrite lookup_insert_eq. cbn.
  by rewrite Hname, lookup_insert_eq.
Qed.

Lemma registration_twice_refused_witness :
  Brokkoly_task {| queue := "test_queue" |} [] task_with_text test_registry_with_text
  = Err (BrokkolyError "task_with_text is already registered.").
Proof.
  apply (registration_twice_refused {| queue := "test_queue" |}
           [preprocessor_number_to_text] [] task_with_text task_with_text
           test_registry); reflexivity.
Defined.

(** X14: the queue listing is sorted, without repetition, and holds exactly
    the names bound in the registry. *)
Theorem queue_listing_sorted_exact :
  ∀ (_tasks : Registry),
    Sorted string_le (_list_queue_name _tasks) ∧
    NoDup (_list_queue_name _tasks) ∧
    ∀ name, name ∈ _list_queue_name _tasks ↔ is_Some (_tasks !! name).
Proof.
  intros _tasks. split; [apply _list_queue_name_sorted|]. split.
  - unfold _list_queue_name. rewrite merge_sort_Permutation.
    apply NoDup_fst_map_to_list.
  - intros name. unfold _list_queue_name.
    rewrite merge_sort_Permutation, list_elem_of_fmap. split.
    + intros ([k d] & -> & Hin). apply elem_of_map_to_list in Hin. by exists d.
    + intros [d Hd]. exists (name, d). split; [done|]. by apply elem_of_map_to_list.
Qed.

(** X15: the task listing of a queue that is in the registry holds exactly
    the names of the tasks registered under it, each once; for a queue that
    is not, the resource answers not-found with the undefined-queue title. *)
Theorem task_listing_exact :
  ∀ (_tasks : Registry) (queue_name : string),
    match _tasks !! queue_name with
    | Some queue_tasks =>
        ∃ task_names,
          TaskListResource_on_get _tasks queue_name = Ok task_names ∧
          NoDup task_names ∧
          length task_names = size queue_tasks ∧
          ∀ task_name, task_name ∈ task_names ↔ is_Some (queue_tasks !! task_name)
    | None =>
        TaskListResource_on_get _tasks queue_name
        = Err (HTTPNotFound "Undefined queue" (queue_name +:+ " is undefined queue"))
    end.
Proof.
  intros _tasks queue_name. unfold TaskListResource_on_get, _list_task_name.
  destruct (_tasks !! queue_name) as [queue_tasks|]; [|done].
  eexists. split; [done|]. split; [apply NoDup_fst_map_to_list|]. split.
  - by rewrite length_fmap, length_map_to_list.
  - intros task_name. rewrite list_elem_of_fmap. split.
    + intros ([k e] & -> & Hin). apply elem_of_map_to_list in Hin. by exists e.
    + intros [e He]. exists (task_name, e). split; [done|].
      by apply elem_of_map_to_list.
Qed.

(** ** The producer *)

Section ProducerMoreFacts.
Variable json_loads : string → option value.
Variable json_dumps : value → string.

(** A request for a registered task whose body is unusable ends when the
    message is taken from the payload, at the latest. *)
Lemma on_post_payload_fails (_tasks : Registry) req queue_name task_name w entry e :
  _validate_queue_and_task _tasks queue_name task_name = Ok entry →
  (if String.eqb (stream req) "" then
     e = HTTPBadRequest "Empty payload"
       "Even your task doesn't need any arguments, payload must have message filed"
   else match json_loads (stream req) with
        | None => e = HTTPBadRequest "Payload is not a JSON" "The payload must be a JSON"
        | Some payload =>
            match getitem payload "message" with
            | Ok _ => False
            | Err KeyError =>
                e = HTTPBadRequest "Invalid JSON" "JSON must have message field"
            | Err e' => e = e'
            end
        end) →
  on_post json_loads json_dumps _tasks req queue_name task_name w
  = (Err e, World (next_id w) (calls w) (trace w ++ [EvStreamRead])).
Proof.
  intros Hlookup He. run_producer. rewrite Hlookup. cbn.
  destruct entry as [[task schema] preprocessors]. cbn.
  destruct (String.eqb (stream req) ""); [by subst|].
  destruct (json_loads (stream req)) as [payload|]; cbn; [|by subst].
  destruct (getitem payload "message") as [message|e'']; [done|].
  destruct e''; by subst.
Qed.
End ProducerMoreFacts.

(** X16: a request for a registered task with an empty body, with a body that
    is not JSON, or with a JSON object that has no message field is refused
    with a bad-request error of its own title; the body has been read, and
    neither a log entry was created nor the broker called. *)
Theorem payload_errors_leave_log_untouched :
  ∀ (json_loads : string → option value) (json_dumps : value → string)
    (_tasks : Registry) (req : Request) (queue_name task_name : string) (w : world)
    (entry : TaskEntry),
    _validate_queue_and_task _tasks queue_name task_name = Ok entry →
    (stream req = "" →
     on_post json_loads json_dumps _tasks req queue_name task_name w
     = (Err (HTTPBadRequest "Empty payload"
          "Even your task doesn't need any arguments, payload must have message filed"),
        World (next_id w) (calls w) (trace w ++ [EvStreamRead]))) ∧
    (stream req ≠ "" → json_loads (stream req) = None →
     on_post json_loads json_dumps _tasks req queue_name task_name w
     = (Err (HTTPBadRequest "Payload is not a JSON" "The payload must be a JSON"),
        World (next_id w) (calls w) (trace w ++ [EvStreamRead]))) ∧
    (∀ d : Message,
       stream req ≠ "" → json_loads (stream req) = Some (VDict d) →
       d !! "message" = None →
       on_post json_loads json_dumps _tasks req queue_name task_name w
       = (Err (HTTPBadRequest "Invalid JSON" "JSON must have message field"),
          World (next_id w) (calls w) (trace w ++ [EvStreamRead]))).
Proof.
  intros json_loads json_dumps _tasks req queue_name task_name w entry Hlookup.
  split; [|split].
  - intros Hempty. eapply on_post_payload_fails; [done|]. by rewrite Hempty.
  - intros Hne Hjson. eapply on_post_payload_fails; [done|].
    destruct (String.eqb_spec (stream req) ""); [done|]. by rewrite Hjson.
  - intros d Hne Hjson Hmsg. eapply on_post_payload_fails; [done|].
    destruct (String.eqb_spec (stream req) ""); [done|]. rewrite Hjson. cbn.
    by rewrite Hmsg.
Qed.

Lemma payload_errors_leave_log_untouched_witness :
  on_post (decode_as VNone) (encode_as "message") test_registry {| stream := "" |}
    "test_queue" "task_for_preprocessor_test" fresh_world
  = (Err (HTTPBadRequest "Empty payload"
       "Even your task doesn't need any arguments, payload must have message filed"),
     World 1 0 [EvStreamRead]) ∧
  on_post (λ _, None) (encode_as "message") test_registry {| stream := "body" |}
    "test_queue" "task_for_preprocessor_test" fresh_world
  = (Err (HTTPBadRequest "Payload is not a JSON" "The payload must be a JSON"),
     World 1 0 [EvStreamRead]) ∧
  on_post (decode_as (VDict ∅)) (encode_as "message") test_registry {| stream := "body" |}
    "test_queue" "task_for_preprocessor_test" fresh_world
  = (Err (HTTPBadRequest "Invalid JSON" "JSON must have message field"),
     World 1 0 [EvStreamRead]).
Proof.
  split; [|split].
  - destruct (payload_errors_leave_log_untouched (decode_as VNone) (encode_as "message")
                test_registry {| stream := "" |} "test_queue"
                "task_for_preprocessor_test" fresh_world _ eq_refl) as (Hempty & _).
    apply Hempty. reflexivity.
  - destruct (payload_errors_leave_log_untouched (λ _, None) (encode_as "message")
                test_registry {| stream := "body" |} "test_queue"
                "task_for_preprocessor_test" fresh_world _ eq_refl) as (_ & Hjson & _).
    apply Hjson; [discriminate|reflexivity].
  - destruct (payload_errors_leave_log_untouched (decode_as (VDict ∅))
                (encode_as "message") test_registry {| stream := "body" |} "test_queue"
                "task_for_preprocessor_test" fresh_world _ eq_refl) as (_ & _ & Hmsg).
    apply (Hmsg ∅); [discriminate|reflexivity|reflexivity].
Defined.

(** X17: a body that is JSON but not an object makes the request end with
    [TypeError] when the message is taken from it, after the body was read and
    before a log entry is created. *)
Theorem payload_not_an_object :
  ∀ (json_loads : string → option value) (json_dumps : value → string)
    (_tasks : Registry) (req : Request) (queue_name task_name : string) (w : world)
    (entry : TaskEntry) (payload : value),
    _validate_queue_and_task _tasks queue_name task_name = Ok entry →
    stream req ≠ "" →
    json_loads (stream req) = Some payload →
    (∀ d, payload ≠ VDict d) →
    on_post json_loads json_dumps _tasks req queue_name task_name w
    = (Err TypeError, World (next_id w) (calls w) (trace w ++ [EvStreamRead])).
Proof.
  intros json_loads json_dumps _tasks req queue_name task_name w entry payload
    Hlookup Hne Hjson Hnd.
  eapply on_post_payload_fails; [done|].
  destruct (String.eqb_spec (stream req) ""); [done|]. rewrite Hjson.
  destruct payload; try done. by destruct (Hnd d).
Qed.

Lemma payload_not_an_object_witness :
  on_post (decode_as (VList [VInt 1])) (encode_as "message") test_registry
    {| stream := "body" |} "test_queue" "task_for_preprocessor_test" fresh_world
  = (Err TypeError, World 1 0 [EvStreamRead]).
Proof.
  eapply (payload_not_an_object (decode_as (VList [VInt 1])) (encode_as "message")
            test_registry {| stream := "body" |} "test_queue"
            "task_for_preprocessor_test" fresh_world);
    [reflexivity|discriminate|reflexivity|discriminate].
Defined.

(** X18: a request that passes the fold and the validation is answered 202
    with an empty JSON object.  The log entry is created first, with the
    message as it was sent; the broker is then given the validated result of
    the fold, the id of that entry and, as delay, the payload's delay field or
    0 when it has none; the log is pruned last. *)
Theorem accepted_dispatch_order :
  ∀ (json_loads : string → option value) (json_dumps : value → string)
    (_tasks : Registry) (req : Request) (queue_name task_name : string) (w : world)
    (task : string * string) (schema : Validation)
    (preprocessors : list (Processor (Message → result value)))
    (d : Message) (message folded : value) (args : Message),
    _validate_queue_and_task _tasks queue_name task_name
    = Ok (Build_Processor task schema, preprocessors) →
    stream req ≠ "" →
    json_loads (stream req) = Some (VDict d) →
    d !! "message" = Some message →
    _recurse message preprocessors = Ok folded →
    _validate folded schema = Ok args →
    on_post json_loads json_dumps _tasks req queue_name task_name w
    = (Ok {| status := "202 Accepted"; body := "{}" |},
       World (next_id w + 1) (calls w)
         (trace w ++ [EvStreamRead;
                      EvCreate (next_id w) queue_name task_name (json_dumps message);
                      EvApplyAsync task.1 task.2 (next_id w) args
                        (default (VInt 0) (d !! "delay"));
                      EvEliminate queue_name task_name])).
Proof.
  intros json_loads json_dumps _tasks req queue_name task_name w task schema
    preprocessors d message folded args Hlookup Hne Hjson Hmsg Hfold Hargs.
  eapply on_post_accepted; eauto.
  - cbn. by rewrite Hmsg.
  - by rewrite Hfold.
Qed.

Lemma accepted_dispatch_order_witness :
  on_post
    (decode_as (VDict {[ "message" := VDict {[ "number" := VInt 1 ]} ]}))
    (encode_as "message") test_registry_with_text {| stream := "body" |}
    "test_queue" "task_with_text" fresh_world
  = (Ok {| status := "202 Accepted"; body := "{}" |},
     World 2 0
       [EvStreamRead;
        EvCreate 1 "test_queue" "task_with_text" "message";
        EvApplyAsync "test_queue" "task_with_text" 1 {[ "text" := VStr "1" ]} (VInt 0);
        EvEliminate "test_queue" "task_with_text"]).
Proof.
  etransitivity.
  { apply (accepted_dispatch_order
           (decode_as (VDict {[ "message" := VDict {[ "number" := VInt 1 ]} ]}))
           (encode_as "message") test_registry_with_text {| stream := "body" |}
           "test_queue" "task_with_text" fresh_world
           ("test_queue", "task_with_text") [("text", TStr)]
           [Build_Processor (call preprocessor_number_to_text) [("number", TInt)]]
           {[ "message" := VDict {[ "number" := VInt 1 ]} ]}
           (VDict {[ "number" := VInt 1 ]}) (VDict {[ "text" := VStr "1" ]})
           {[ "text" := VStr "1" ]});
      [reflexivity|discriminate|reflexivity|reflexivity|reflexivity|reflexivity]. }
  reflexivity.
Defined.

(** ** The task execution wrapper *)

Section DeliveryFacts.
Context {P : Type} `{RetryPolicy P}.

(** A body that always raises [e], from attempt [k - j] on under a bound of
    [k] retries: [j] more runs end with the retry accepted, the last one with
    the entry marked completed. *)
Lemma deliver_always_fails_from (p : P) (f : TaskBody) e d id args (k j : nat) :
  max_retries p = Some (Z.of_nat k) →
  (∀ n, ∃ c, countdown p n e = Ok c) →
  (∀ run, f run args = Err e) →
  (∀ c, e ≠ Retry c) →
  (j ≤ k)%nat →
  ∀ fuel w,
    (j + 1 ≤ fuel)%nat →
    ∃ evs,
      deliver (Some p) f d id args fuel (k - j) w
      = (Some (Ok VNone),
         World (next_id w) (calls w + j + 1) (trace w ++ evs)) ∧
      count is_complete evs = 1%nat ∧
      count is_commit evs = 1%nat ∧
      count is_close evs = (j + 1)%nat.
Proof.
  intros Hmax Hc Hf He. induction j as [|j IH]; intros Hj fuel w Hfuel.
  - destruct fuel as [|fuel]; [lia|]. cbn [deliver].
    destruct (Hc (k - 0)%nat) as [c Hck].
    rewrite (handle_exhausted p f d (k - 0) id args w e c);
      [|done|done|rewrite Hmax; cbn; lia|done].
    replace (calls w + 0 + 1)%nat with (S (calls w)) by lia.
    eexists. split; [done|done].
  - destruct fuel as [|fuel]; [lia|]. cbn [deliver].
    destruct (Hc (k - S j)%nat) as [c Hck].
    rewrite (handle_accepted p f d (k - S j) id args w e c);
      [|done|done|rewrite Hmax; cbn; lia].
    replace (S (k - S j)) with (k - j)%nat by lia.
    destruct (IH ltac:(lia) fuel
                (World (next_id w) (S (calls w))
                   (trace w ++ [EvReconnect; EvGetById id; EvCall args;
                                EvRetry c (max_retries p) e; EvClose]))
                ltac:(lia)) as (evs & -> & Hcomplete & Hcommit & Hclose).
    cbn [next_id calls trace].
    replace (S (calls w) + j + 1)%nat with (calls w + S j + 1)%nat by lia.
    eexists. split; [by rewrite <- app_assoc|].
    rewrite !count_app, Hcomplete, Hcommit, Hclose. cbn. repeat split; lia.
Qed.
End DeliveryFacts.

(** X19: under the broker, one run of the wrapper closes the connection
    exactly once on every exit, except when no retry policy is configured and
    the body raises: then it does not close it. *)
Theorem wrapper_close_count :
  ∀ (P : Type) (HP : RetryPolicy P) (policy : option P) (f : TaskBody)
    (d : Z) (n : nat) (id : Z) (args : Message) (w : world),
    ∃ evs,
      trace (handle policy f (celery_task_at d n) id args w).2 = trace w ++ evs ∧
      count is_close evs
      = match policy, f (calls w) args with
        | None, Err _ => 0%nat
        | _, _ => 1%nat
        end.
Proof. intros. apply handle_close_count. Qed.

(** X24: when the broker's retry primitive returns instead of raising, the
    wrapper takes the delivery for finished: it marks the entry completed,
    commits, closes and returns normally. *)
Theorem retry_returning_completes :
  ∀ (P : Type) (HP : RetryPolicy P) (p : P) (f : TaskBody) (n : nat) (id : Z)
    (args : Message) (w : world) (e : exn) (c : Z),
    f (calls w) args = Err e →
    countdown p n e = Ok c →
    handle (Some p) f {| request_retries := n; retry := λ _ _ _, mret tt |} id args w
    = (Ok VNone,
       World (next_id w) (S (calls w))
         (trace w ++ [EvReconnect; EvGetById id; EvCall args;
                      EvComplete id; EvCommit; EvClose])).
Proof.
  intros P HP p f n id args w e c Hf Hc.
  run_wrapper. rewrite Hf. cbn. rewrite Hc. cbn. by tidy_trace.
Qed.

Lemma retry_returning_completes_witness :
  handle (Some (FibonacciBackoff.make 1 None)) (always_fails (UserError "boom"))
    {| request_retries := 0; retry := λ _ _ _, mret tt |} 7 ∅ fresh_world
  = (Ok VNone,
     World 1 1 [EvReconnect; EvGetById 7; EvCall ∅; EvComplete 7; EvCommit; EvClose]).
Proof.
  apply (retry_returning_completes FibonacciBackoff.t _ (FibonacciBackoff.make 1 None)
           (always_fails (UserError "boom")) 0 7 ∅ fresh_world (UserError "boom") 1);
    reflexivity.
Defined.

(** X20: under the exponential policy without ceiling a failed task is never
    retried.  The policy raises while the delay is computed, the wrapper
    takes that for the end of the retries: it marks the entry completed,
    commits, closes and returns normally, without asking the broker. *)
Theorem exponential_without_ceiling_never_retries :
  ∀ (max_retries : Z) (f : TaskBody) (celery_task : CeleryTask) (id : Z)
    (args : Message) (w : world) (e : exn),
    f (calls w) args = Err e →
    handle (Some (ExponentialBackoff.make max_retries None)) f celery_task id args w
    = (Ok VNone,
       World (next_id w) (S (calls w))
         (trace w ++ [EvReconnect; EvGetById id; EvCall args;
                      EvComplete id; EvCommit; EvClose])).
Proof.
  intros max_retries f celery_task id args w e Hf.
  by apply (handle_countdown_raises _ f celery_task id args w e TypeError).
Qed.

Lemma exponential_without_ceiling_never_retries_witness :
  handle (Some (ExponentialBackoff.make 3 None)) (always_fails (UserError "boom"))
    (celery_task_at 3 0) 7 ∅ fresh_world
  = (Ok VNone,
     World 1 1 [EvReconnect; EvGetById 7; EvCall ∅; EvComplete 7; EvCommit; EvClose]).
Proof.
  apply (exponential_without_ceiling_never_retries 3 (always_fails (UserError "boom"))
           (celery_task_at 3 0) 7 ∅ fresh_world (UserError "boom")).
  reflexivity.
Defined.

(** X21: a task that always fails, under a policy that allows [k] retries and
    gives a delay at every attempt, is run [k + 1] times.  The delivery ends
    with the wrapper returning normally; over all runs the entry is marked
    completed once, committed once, and the connection closed once per run. *)
Theorem failing_delivery_runs :
  ∀ (P : Type) (HP : RetryPolicy P) (p : P) (f : TaskBody) (e : exn)
    (d id : Z) (args : Message) (k fuel : nat) (w : world),
    max_retries p = Some (Z.of_nat k) →
    (∀ n, ∃ c, countdown p n e = Ok c) →
    (∀ run, f run args = Err e) →
    (∀ c, e ≠ Retry c) →
    (k + 1 ≤ fuel)%nat →
    ∃ evs,
      deliver (Some p) f d id args fuel 0 w
      = (Some (Ok VNone), World (next_id w) (calls w + k + 1) (trace w ++ evs)) ∧
      count is_complete evs = 1%nat ∧
      count is_commit evs = 1%nat ∧
      count is_close evs = (k + 1)%nat.
Proof.
  intros P HP p f e d id args k fuel w Hmax Hc Hf He Hfuel.
  destruct (deliver_always_fails_from p f e d id args k k Hmax Hc Hf He
              (Nat.le_refl k) fuel w Hfuel) as (evs & Hrun & Hcounts).
  rewrite Nat.sub_diag in Hrun. by exists evs.
Qed.

Lemma failing_delivery_runs_witness :
  ∃ evs,
    deliver (Some (FibonacciBackoff.make 3 (Some 80))) (always_fails (UserError "boom"))
      0 7 ∅ 4 0 fresh_world
    = (Some (Ok VNone), World 1 (0 + 3 + 1) ([] ++ evs)) ∧
    count is_complete evs = 1%nat ∧
    count is_commit evs = 1%nat ∧
    count is_close evs = (3 + 1)%nat.
Proof.
  apply (failing_delivery_runs FibonacciBackoff.t _ (FibonacciBackoff.make 3 (Some 80))
           (always_fails (UserError "boom")) (UserError "boom") 0 7 ∅ 3 4 fresh_world).
  - reflexivity.
  - intros n. eexists. reflexivity.
  - reflexivity.
  - discriminate.
  - lia.
Defined.

(** ** The request middleware *)

(** X22: after a request that failed, the middleware never commits: it rolls
    back first and, only if that went through, closes.  A
    [ProgrammingError] from either call is swallowed; any other error, from
    the rollback or from the close, leaves the method; when both calls go
    through nothing is raised.  After a rollback that goes through, the calls
    made are exactly the rollback and the close. *)
Theorem process_response_after_failure :
  ∀ (connection : Connection),
    (CallCommit ∉ (process_response (Some connection) false).1) ∧
    ((process_response (Some connection) false).2 ≠ Some ProgrammingError) ∧
    (connection CallRollback = None →
     (process_response (Some connection) false).1 = [CallRollback; CallClose]) ∧
    (connection CallRollback ≠ None →
     (process_response (Some connection) false).1 = [CallRollback]) ∧
    (connection CallRollback = Some OtherDatabaseError →
     (process_response (Some connection) false).2 = Some OtherDatabaseError) ∧
    (connection CallRollback = Some ProgrammingError →
     (process_response (Some connection) false).2 = None) ∧
    (connection CallRollback = None →
     connection CallClose = Some OtherDatabaseError →
     (process_response (Some connection) false).2 = Some OtherDatabaseError) ∧
    (connection CallRollback = None →
     connection CallClose ≠ Some OtherDatabaseError →
     (process_response (Some connection) false).2 = None).
Proof.
  intros connection. unfold process_response.
  destruct (connection CallRollback) as [[]|];
    [| |destruct (connection CallClose) as [[]|]]; cbn;
    repeat split; try done; set_solver.
Qed.

Lemma process_response_after_failure_witness :
  process_response (Some live_connection) false = ([CallRollback; CallClose], None) ∧
  process_response (Some failing_close_connection) false
  = ([CallRollback; CallClose], Some OtherDatabaseError) ∧
  process_response (Some closed_connection) false = ([CallRollback], None).
Proof.
  split; [|split].
  - destruct (process_response_after_failure live_connection)
      as (_ & _ & Hcalls & _ & _ & _ & _ & Hnone).
    apply injective_projections; cbn [fst snd];
      [apply Hcalls; reflexivity|apply Hnone; [reflexivity|discriminate]].
  - destruct (process_response_after_failure failing_close_connection)
      as (_ & _ & Hcalls & _ & _ & _ & Hclose & _).
    apply injective_projections; cbn [fst snd];
      [apply Hcalls; reflexivity|apply Hclose; reflexivity].
  - destruct (process_response_after_failure closed_connection)
      as (_ & _ & _ & Hcalls & _ & Hswallow & _).
    apply injective_projections; cbn [fst snd];
      [apply Hcalls; discriminate|apply Hswallow; reflexivity].
Defined.

(** X23: after a request that succeeded, the middleware never rolls back: it
    commits first and, only if that went through, closes; an error from
    either call leaves the method, [ProgrammingError] included.  Without a
    connection, whatever the request's outcome, it makes no call. *)
Theorem process_response_after_success :
  ∀ (connection : Connection) (req_succeeded : bool),
    (CallRollback ∉ (process_response (Some connection) true).1) ∧
    (process_response (Some connection) true).2
    = match connection CallCommit with
      | Some e => Some e
      | None => connection CallClose
      end ∧
    (process_response (Some connection) true).1
    = match connection CallCommit with
      | Some _ => [CallCommit]
      | None => [CallCommit; CallClose]
      end ∧
    process_response None req_succeeded = ([], None).
Proof.
  intros connection req_succeeded. unfold process_response.
  destruct (connection CallCommit) as [e|]; cbn; repeat split; set_solver.
Qed.
